(** * Nightingale: a shallow embedding of the incident resolution pipeline

    Sources embedded here:
    - [nightingale/types.py]: the data model ([FileDiff], [FixPlan],
      [VerificationResult], [ConfidenceFactors]);
    - [nightingale/analysis/confidence.py] and [blast_radius.py]: the
      confidence scorer and the resolution gate;
    - [nightingale/agents/verifier.py]: the verifier and its test-output
      parser;
    - [nightingale/core/sandbox.py]: copy, apply and cleanup of the sandbox,
      over an explicit file-system state;
    - [nightingale/agents/marathon.py] and [nightingale/core/orchestrator.py]:
      the reflective loop and [process_incident];
    - [nightingale/core/gemini_client.py]: the response cache, the
      schema-retry loop of [generate_structured], the retry with backoff and
      the rate limiter;
    - [nightingale/core/workflow_parser.py]: the test commands read from the
      CI workflows;
    - the field normalisation of [GeminiFixResponse] and its conversion to
      [FileDiff]s in [MarathonAgent._response_to_plan].

    Python floats are modelled by [Q]: every finite binary64 value is a
    rational, and each float literal of the source is written as the exact
    value of its binary64 rounding (so [0.3] is [lit_0_3], slightly below
    3/10).  Comparisons are then exact; the few additions and products of the
    scorer are computed without rounding. *)

From Stdlib Require Import String Ascii List ZArith QArith Qminmax Bool Lia Lqa.
Import ListNotations.
Open Scope string_scope.

(* ------------------------------------------------------------------ *)
(** ** Float literals of the source *)

Definition lit_0_85 : Q := 7656119366529843 # 9007199254740992.
Definition lit_0_5 : Q := 1 # 2.
Definition lit_0_3 : Q := 5404319552844595 # 18014398509481984.
Definition lit_0_35 : Q := 3152519739159347 # 9007199254740992.
Definition lit_0_25 : Q := 1 # 4.
Definition lit_0_15 : Q := 5404319552844595 # 36028797018963968.
Definition lit_0_10 : Q := 3602879701896397 # 36028797018963968.
Definition lit_0_7 : Q := 3152519739159347 # 4503599627370496.
Definition lit_0_4 : Q := 3602879701896397 # 9007199254740992.
Definition lit_0_1 : Q := lit_0_10.

(** Python's [a < b] on (non-NaN) floats. *)
Definition Qltb (a b : Q) : bool := negb (Qle_bool b a).

(* ------------------------------------------------------------------ *)
(** ** Data model ([types.py]) *)

Inductive change_kind := Modify | Add | Delete.

Record FileDiff := mkFileDiff {
  file_path : string;
  change_type : change_kind;
  diff_content : string
}.

Inductive RiskLevel := LOW | MEDIUM | HIGH | CRITICAL.

Record FixPlan := mkFixPlan {
  rationale : string;
  root_cause : string;
  files_to_change : list FileDiff;
  verification_steps : list string;
  confidence_score : Q;
  risk_level : RiskLevel;
  attempt_number : Z;
  previous_failure_context : option string
}.

Record VerificationResult := mkVerificationResult {
  success : bool;
  input_hash : string;
  output_log : string;
  duration_ms : Z;
  tests_passed : Z;
  tests_failed : Z;
  tests_total : Z;
  exit_code : Z
}.

(** [VerificationResult.pass_ratio]: [tests_passed / tests_total] in true
    division, or 1.0 / 0.0 when [tests_total == 0]. *)
Definition pass_ratio (r : VerificationResult) : Q :=
  if Z.eqb (tests_total r) 0 then (if success r then 1 else 0)
  else (tests_passed r # 1) / (tests_total r # 1).

Record ConfidenceFactors := mkConfidenceFactors {
  test_pass_ratio : Q;
  inverse_blast_radius : Q;
  attempt_penalty : Q;
  risk_modifier : Q;
  self_consistency_score : Q
}.

(** [ConfidenceFactors()] with the field defaults. *)
Definition default_factors : ConfidenceFactors :=
  mkConfidenceFactors 0 1 1 lit_0_5 lit_0_5.

(** The pydantic constraints [Field(ge=0.0, le=1.0)] on every factor:
    building a [ConfidenceFactors] outside them raises a validation error. *)
Definition in_unit (x : Q) : bool := Qle_bool 0 x && Qle_bool x 1.

Definition factors_valid (f : ConfidenceFactors) : bool :=
  in_unit (test_pass_ratio f) && in_unit (inverse_blast_radius f)
  && in_unit (attempt_penalty f) && in_unit (risk_modifier f)
  && in_unit (self_consistency_score f).

Definition weighted_score (f : ConfidenceFactors) : Q :=
  lit_0_35 * test_pass_ratio f + lit_0_25 * inverse_blast_radius f
  + lit_0_15 * attempt_penalty f + lit_0_15 * risk_modifier f
  + lit_0_10 * self_consistency_score f.

(* ------------------------------------------------------------------ *)
(** ** Resolution gate ([ResolutionEngine.decide]) *)

Inductive Decision := Resolve | Escalate.

Definition RESOLVE_THRESHOLD : Q := lit_0_85.

(** [factors] is [Optional[ConfidenceFactors]]; a present pydantic model is
    truthy, so [if factors:] is the [Some] case. *)
Definition decide (resolve_threshold confidence_score : Q)
    (factors : option ConfidenceFactors) : Decision :=
  if Qle_bool resolve_threshold confidence_score then
    match factors with
    | Some f =>
        if Qltb (test_pass_ratio f) lit_0_5 then Escalate
        else if Qltb (inverse_blast_radius f) lit_0_3 then Escalate
        else Resolve
    | None => Resolve
    end
  else Escalate.

(* ------------------------------------------------------------------ *)
(** ** String helpers *)

Definition is_digit (c : ascii) : bool :=
  let n := nat_of_ascii c in ((48 <=? n) && (n <=? 57))%nat.

(** Python's [\s] on a str pattern, restricted to code points 0..255:
    the characters for which [str.isspace()] holds. *)
Definition is_space (c : ascii) : bool :=
  let n := nat_of_ascii c in
  (((9 <=? n) && (n <=? 13)) || ((28 <=? n) && (n <=? 32))
   || (n =? 133) || (n =? 160))%nat.

(** Maximal run of leading digits, and what follows it. *)
Fixpoint take_digits (s : string) : string * string :=
  match s with
  | String c s' =>
      if is_digit c then let (d, r) := take_digits s' in (String c d, r)
      else (EmptyString, s)
  | EmptyString => (EmptyString, EmptyString)
  end.

Fixpoint drop_spaces (s : string) : string :=
  match s with
  | String c s' => if is_space c then drop_spaces s' else s
  | EmptyString => EmptyString
  end.

(** [\s+]: at least one whitespace character, then all of them. *)
Definition spaces1 (s : string) : option string :=
  match s with
  | String c s' => if is_space c then Some (drop_spaces s') else None
  | EmptyString => None
  end.

Fixpoint drop_char (c0 : ascii) (s : string) : string :=
  match s with
  | String c s' => if Ascii.eqb c c0 then drop_char c0 s' else s
  | EmptyString => EmptyString
  end.

(** [int(...)] of a run of ASCII digits. *)
Fixpoint Z_of_digits_acc (acc : Z) (s : string) : Z :=
  match s with
  | String c s' => Z_of_digits_acc (10 * acc + Z.of_nat (nat_of_ascii c - 48))%Z s'
  | EmptyString => acc
  end.

Definition Z_of_digits (s : string) : Z := Z_of_digits_acc 0 s.

(** [str(n)] for a Python int. *)
Fixpoint digits_of_Z_fuel (fuel : nat) (n : Z) (acc : string) : string :=
  match fuel with
  | O => acc
  | S fuel' =>
      let acc' := String (ascii_of_nat (48 + Z.to_nat (n mod 10))) acc in
      if Z.ltb n 10 then acc' else digits_of_Z_fuel fuel' (n / 10)%Z acc'
  end.

Definition z_to_string (z : Z) : string :=
  let body := digits_of_Z_fuel (S (Z.to_nat (Z.log2 (Z.abs z) + 1)))
                (Z.abs z) EmptyString in
  if Z.ltb z 0 then String "-" body else body.

(** [needle in haystack] for str. *)
Fixpoint contains (needle hay : string) : bool :=
  prefix needle hay ||
  match hay with
  | String _ hay' => contains needle hay'
  | EmptyString => false
  end.

(** [re.search]: try the anchored matcher [f] at every position from the
    left, the end of the string included. *)
Fixpoint search {A} (f : string -> option A) (s : string) : option A :=
  match f s with
  | Some a => Some a
  | None => match s with String _ s' => search f s' | EmptyString => None end
  end.

(** The lazy [.*?] of a regex: [.] does not match a newline. *)
Fixpoint search_line {A} (f : string -> option A) (s : string) : option A :=
  match f s with
  | Some a => Some a
  | None =>
      match s with
      | String c s' => if Ascii.eqb c "010"%char then None else search_line f s'
      | EmptyString => None
      end
  end.

Fixpoint drop_n (n : nat) (s : string) : string :=
  match n, s with
  | S n', String _ s' => drop_n n' s'
  | _, _ => s
  end.

(** Anchored [word...]: the rest after [word], if [s] starts with it. *)
Definition after (word s : string) : option string :=
  if prefix word s then Some (drop_n (String.length word) s) else None.

Definition obind {A B} (o : option A) (f : A -> option B) : option B :=
  match o with Some a => f a | None => None end.

(* ------------------------------------------------------------------ *)
(** ** The regexes of [VerificationAgent._parse_test_output]

    Each anchored matcher reads one regex at the current position.  Greedy
    [\d+], [=+] and [\s+]/[\s*] never need to backtrack in these patterns:
    the token after each of them cannot start with a character the run
    consumed.  For the same reason the leftmost match found by [search]
    starts at the beginning of a digit run, so the group is the whole run. *)

(** [(\d+)\s+<word>] anchored; returns the group and the text after [word]. *)
Definition num_ws_word (word s : string) : option (Z * string) :=
  let (d, r) := take_digits s in
  match d with
  | EmptyString => None
  | _ => obind (spaces1 r) (fun r' =>
           obind (after word r') (fun r'' => Some (Z_of_digits d, r'')))
  end.

Definition grp {A B} (o : option (A * B)) : option A :=
  match o with Some (a, _) => Some a | None => None end.

(** [(\d+)\s+passed] *)
Definition re_passed (s : string) : option Z := grp (num_ws_word "passed" s).
(** [(\d+)\s+failed] *)
Definition re_failed (s : string) : option Z := grp (num_ws_word "failed" s).

(** [=+\s*(\d+)\s+passed] *)
Definition re_short (s : string) : option Z :=
  match s with
  | String c s' =>
      if Ascii.eqb c "=" then re_passed (drop_spaces (drop_char "=" s')) else None
  | EmptyString => None
  end.

(** [Ran\s+(\d+)\s+test] *)
Definition re_ran (s : string) : option Z :=
  obind (after "Ran" s) (fun r => obind (spaces1 r) (fun r' =>
    grp (num_ws_word "test" r'))).

(** [failures=(\d+)] *)
Definition re_failures (s : string) : option Z :=
  obind (after "failures=" s) (fun r =>
    let (d, _) := take_digits r in
    match d with EmptyString => None | _ => Some (Z_of_digits d) end).

(** [Tests:\s*(\d+)\s+passed.*?(\d+)\s+failed] *)
Definition re_jest (s : string) : option (Z * Z) :=
  obind (after "Tests:" s) (fun r =>
    obind (num_ws_word "passed" (drop_spaces r)) (fun '(p, r') =>
      obind (search_line re_failed r') (fun f => Some (p, f)))).

Definition get_or {A} (o : option A) (d : A) : A :=
  match o with Some a => a | None => d end.

(** [VerificationAgent._parse_test_output]: (passed, failed, total). *)
Definition parse_test_output (output : string) : Z * Z * Z :=
  let passed := get_or (search re_passed output) 0%Z in
  let failed := get_or (search re_failed output) 0%Z in
  let passed :=
    if Z.eqb passed 0 then get_or (search re_short output) passed else passed in
  let '(passed, failed) :=
    match search re_ran output with
    | Some total =>
        if Z.eqb passed 0 && Z.eqb failed 0 then
          if contains "OK" output then (total, failed)
          else if contains "FAILED" output then
            match search re_failures output with
            | Some f => ((total - f)%Z, f)
            | None => (passed, failed)
            end
          else (passed, failed)
        else (passed, failed)
    | None => (passed, failed)
    end in
  let '(passed, failed) :=
    match search re_jest output with
    | Some (p, f) => (p, f)
    | None => (passed, failed)
    end in
  (passed, failed, (passed + failed)%Z).

Example parse_pytest :
  parse_test_output "===== 5 passed, 2 failed in 0.5s =====" = (5%Z, 2%Z, 7%Z).
Proof. reflexivity. Qed.

Example parse_jest :
  parse_test_output "Tests: 3 passed, 1 failed, 4 total" = (3%Z, 1%Z, 4%Z).
Proof. reflexivity. Qed.

Example parse_unittest_ok :
  parse_test_output "Ran 4 tests in 0.01s

OK" = (4%Z, 0%Z, 4%Z).
Proof. reflexivity. Qed.

Definition nl : string := String "010"%char EmptyString.
Definition dq : string := String "034"%char EmptyString.
Definition bs : string := String "092"%char EmptyString.

Fixpoint repeat_char (n : nat) (c : ascii) : string :=
  match n with O => EmptyString | S n' => String c (repeat_char n' c) end.

Fixpoint join (sep : string) (l : list string) : string :=
  match l with
  | [] => EmptyString
  | [x] => x
  | x :: l' => x ++ sep ++ join sep l'
  end.

(* ------------------------------------------------------------------ *)
(** ** Plan fingerprint ([FixPlan.content_hash])

    [json.dumps([f.model_dump() for f in files_to_change], sort_keys=True)]
    with the default separators and [ensure_ascii=True]; characters are
    read as code points 0..255. *)

Definition hex_digit (n : nat) : ascii :=
  match String.get n "0123456789abcdef" with Some c => c | None => "0"%char end.

Definition json_escape_char (c : ascii) : string :=
  let n := nat_of_ascii c in
  if (n =? 34)%nat then bs ++ dq
  else if (n =? 92)%nat then bs ++ bs
  else if (n =? 10)%nat then bs ++ "n"
  else if (n =? 13)%nat then bs ++ "r"
  else if (n =? 9)%nat then bs ++ "t"
  else if (n =? 8)%nat then bs ++ "b"
  else if (n =? 12)%nat then bs ++ "f"
  else if (n <? 32)%nat || (126 <? n)%nat then
    bs ++ "u00" ++ String (hex_digit (n / 16)) (String (hex_digit (n mod 16)) EmptyString)
  else String c EmptyString.

Fixpoint json_escape (s : string) : string :=
  match s with
  | String c s' => json_escape_char c ++ json_escape s'
  | EmptyString => EmptyString
  end.

Definition json_str (s : string) : string := dq ++ json_escape s ++ dq.

Definition change_kind_str (k : change_kind) : string :=
  match k with Modify => "modify" | Add => "add" | Delete => "delete" end.

(** [FileDiff.model_dump()] serialised with sorted keys. *)
Definition dump_diff (d : FileDiff) : string :=
  "{" ++ json_str "change_type" ++ ": " ++ json_str (change_kind_str (change_type d))
  ++ ", " ++ json_str "diff_content" ++ ": " ++ json_str (diff_content d)
  ++ ", " ++ json_str "file_path" ++ ": " ++ json_str (file_path d) ++ "}".

Definition dump_diffs (ds : list FileDiff) : string :=
  "[" ++ join ", " (map dump_diff ds) ++ "]".

Section Hashing.
(** [hashlib.sha256(text.encode()).hexdigest()], left abstract. *)
Variable sha256_hex : string -> string.

Definition content_hash (p : FixPlan) : string :=
  substring 0 16 (sha256_hex (dump_diffs (files_to_change p))).

(* ------------------------------------------------------------------ *)
(** ** Verifier ([VerificationAgent.verify])

    [run] is [sandbox.run_command]: a command's (exit code, stdout, stderr)
    in the current sandbox; [elapsed_ms] is the measured wall-clock time. *)

Record VState := mkVState {
  vs_logs : string;
  vs_success : bool;
  vs_passed : Z;
  vs_failed : Z;
  vs_total : Z;
  vs_last_exit : Z
}.

Definition eq50 : string := repeat_char 50 "=".

Definition verify_step (run : string -> Z * string * string) (st : VState)
    (cmd : string) : VState :=
  let '(code, stdout, stderr) := run cmd in
  let logs := vs_logs st ++ nl ++ eq50 ++ nl ++ "CMD: " ++ cmd ++ nl
              ++ "EXIT CODE: " ++ z_to_string code ++ nl ++ eq50 ++ nl in
  let logs := logs ++ "STDOUT:" ++ nl ++ stdout ++ nl in
  let logs := match stderr with
              | EmptyString => logs
              | _ => logs ++ "STDERR:" ++ nl ++ stderr ++ nl
              end in
  let '(p, f, t) := parse_test_output (stdout ++ stderr) in
  mkVState logs (vs_success st && Z.eqb code 0)
    (vs_passed st + p) (vs_failed st + f) (vs_total st + t) code.

Definition verify (run : string -> Z * string * string) (elapsed_ms : Z)
    (plan : FixPlan) : VerificationResult :=
  let st := fold_left (verify_step run) (verification_steps plan)
              (mkVState EmptyString true 0 0 0 0) in
  let '(n_passed, n_total) :=
    if Z.eqb (vs_total st) 0 && vs_success st then (1%Z, 1%Z)
    else (vs_passed st, vs_total st) in
  mkVerificationResult (vs_success st) (content_hash plan) (vs_logs st)
    elapsed_ms n_passed (vs_failed st) n_total (vs_last_exit st).

End Hashing.

(* ------------------------------------------------------------------ *)
(** ** Blast radius ([BlastRadiusAnalyzer]) and scorer ([ConfidenceScorer]) *)

(** [str.lower()] on code points 0..255. *)
Definition lower_char (c : ascii) : ascii :=
  let n := nat_of_ascii c in
  if (((65 <=? n) && (n <=? 90)) || ((192 <=? n) && (n <=? 222) && negb (n =? 215)))%nat
  then ascii_of_nat (n + 32)%nat else c.

Fixpoint lower (s : string) : string :=
  match s with
  | String c s' => String (lower_char c) (lower s')
  | EmptyString => EmptyString
  end.

Definition RISK_PATTERNS (r : RiskLevel) : list string :=
  match r with
  | LOW => ["test_"; "_test.py"; "tests/"; "spec/"; ".md"; ".txt"; ".rst";
            "README"; "LICENSE"; "CHANGELOG"]
  | MEDIUM => ["utils/"; "helpers/"; "tools/"; "config."; "settings."]
  | HIGH => ["core/"; "main."; "app."; "__init__.py"; "base."; "models/"]
  | CRITICAL => ["auth"; "security"; "password"; "secret"; "database";
                 "migration"; "deploy"; ".env"; "credentials"]
  end.

Definition classify_file_risk (path : string) : RiskLevel :=
  let pl := lower path in
  match find (fun r => existsb (fun pat => contains pat pl) (RISK_PATTERNS r))
             [CRITICAL; HIGH; MEDIUM; LOW] with
  | Some r => r
  | None => MEDIUM
  end.

Definition risk_score (r : RiskLevel) : Q :=
  match r with LOW => 1 | MEDIUM => lit_0_7 | HIGH => lit_0_4 | CRITICAL => lit_0_1 end.

(** The keys of [risk_levels], a dict keyed by [file_path]: first
    occurrences, in insertion order. *)
Fixpoint dedup_paths (seen : list string) (ps : list string) : list string :=
  match ps with
  | [] => []
  | p :: ps' =>
      if existsb (String.eqb p) seen then dedup_paths seen ps'
      else p :: dedup_paths (p :: seen) ps'
  end.

Definition Qsum (l : list Q) : Q := fold_right Qplus 0 l.

(** [BlastRadiusAnalyzer(total_files).analyze(changes)]: the pair
    (inverse_blast_radius, risk_modifier). *)
Definition blast_analyze (total_files : Z) (changes : list FileDiff) : Q * Q :=
  match changes with
  | [] => (1, 1)
  | _ =>
      let files_changed := Z.of_nat (length changes) in
      let ratio := (files_changed # 1) / (Z.max total_files 1 # 1) in
      let risks := map classify_file_risk
                     (dedup_paths [] (map file_path changes)) in
      (1 - Qmin ratio 1, Qsum (map risk_score risks) / (Z.of_nat (length risks) # 1))
  end.

Definition ATTEMPT_PENALTIES (n : Z) : Q :=
  if Z.eqb n 1 then 1 else if Z.eqb n 2 then lit_0_7
  else if Z.eqb n 3 then lit_0_4 else lit_0_3.

(** [ConfidenceScorer(total_files).calculate(plan, result, attempt_number)];
    [None] when building [ConfidenceFactors] fails its range validation. *)
Definition calculate (total_files : Z) (plan : FixPlan) (result : VerificationResult)
    (attempt : Z) : option (Q * ConfidenceFactors) :=
  let tpr := if success result then pass_ratio result else 0 in
  let '(ibr, rm) := blast_analyze total_files (files_to_change plan) in
  let f := mkConfidenceFactors tpr ibr (ATTEMPT_PENALTIES attempt) rm
             (confidence_score plan) in
  if factors_valid f then Some (Qmax 0 (Qmin 1 (weighted_score f)), f) else None.

(* ------------------------------------------------------------------ *)
(** ** File system and paths

    A file system maps absolute paths (lists of components) to file
    contents; directories are implicit ([os.makedirs] always succeeds).
    [os.path.join(base, rel)] followed by the kernel's path resolution is
    [resolve_under]: an absolute [rel] replaces [base], and [.] and [..]
    components are resolved ([..] at the root stays at the root). *)

Definition path := list string.
Definition FS := path -> option string.

Definition path_eqb (p q : path) : bool :=
  if list_eq_dec string_dec p q then true else false.

Fixpoint split_slash_acc (cur : string) (s : string) : list string :=
  match s with
  | EmptyString => [cur]
  | String c s' =>
      if Ascii.eqb c "/" then cur :: split_slash_acc EmptyString s'
      else split_slash_acc (cur ++ String c EmptyString) s'
  end.

Definition split_slash (s : string) : list string := split_slash_acc EmptyString s.

(** Resolution with a stack of components, innermost first. *)
Definition norm_step (stk : list string) (seg : string) : list string :=
  if String.eqb seg "" || String.eqb seg "." then stk
  else if String.eqb seg ".." then tl stk
  else seg :: stk.

Definition normalise (p : list string) : path := rev (fold_left norm_step p []).

Definition resolve_under (base : path) (rel : string) : path :=
  if prefix "/" rel then normalise (split_slash rel)
  else normalise (base ++ split_slash rel)%list.

Definition fs_write (p : path) (c : string) (fs : FS) : FS :=
  fun q => if path_eqb q p then Some c else fs q.

Definition fs_remove (p : path) (fs : FS) : FS :=
  fun q => if path_eqb q p then None else fs q.

Fixpoint is_prefix (p q : path) : bool :=
  match p, q with
  | [], _ => true
  | a :: p', b :: q' => String.eqb a b && is_prefix p' q'
  | _ :: _, [] => false
  end.

Definition suffix_of (suf s : string) : bool :=
  let n := String.length s in let m := String.length suf in
  (m <=? n)%nat && String.eqb (substring (n - m) m s) suf.

Definition IGNORED_DIRS : list string :=
  [".git"; ".sandbox"; "__pycache__"; ".nightingale_cache"].

Definition in_ignored (seg : string) : bool := existsb (String.eqb seg) IGNORED_DIRS.

(** [shutil.ignore_patterns(".git", ".sandbox", "__pycache__", "*.pyc",
    ".nightingale_cache")]: a copied path is skipped when one of its
    components matches. *)
Definition copy_ignored (rel : path) : bool :=
  existsb (fun seg => in_ignored seg || suffix_of ".pyc" seg) rel.

(** The paths [_compute_dir_hash(repo)] reads: files under [repo] outside
    the ignored directories, [*.pyc] files excluded.  This is the working
    tree of the invariants. *)
Definition tracked (repo q : path) : bool :=
  is_prefix repo q &&
  match rev (skipn (length repo) q) with
  | [] => false
  | fname :: rdirs => negb (existsb in_ignored rdirs) && negb (suffix_of ".pyc" fname)
  end.

(* ------------------------------------------------------------------ *)
(** ** Sandbox ([sandbox.py]) with [sandbox_dir] = [.sandbox] *)

(** The sandbox id [sandbox_<event.id>_<8 hex digits>] is taken as one
    path component (an [event.id] without [/]). *)
Definition sandbox_path (repo : path) (sandbox_id : string) : path :=
  (repo ++ [".sandbox"; sandbox_id])%list.

(** [Sandbox.setup]: remove any prior sandbox, then copy the repository
    with the ignore patterns.  The [original_hash] it first computes with
    [_compute_dir_hash] reads the whole repository, the sandbox directory
    included, but is only stored; its one use, the check in [cleanup], only
    logs.  It has no effect on the file system and is left out. *)
Definition sandbox_setup (repo sbx : path) (fs : FS) : FS :=
  fun q =>
    if is_prefix sbx q then
      let rel := skipn (length sbx) q in
      match rel with
      | [] => None
      | _ => if copy_ignored rel then None else fs (repo ++ rel)%list
      end
    else fs q.

(** The loop body of [Sandbox.apply_diffs], also the loop body of
    [Orchestrator._apply_fix_to_repo] (same cases, [modify] and [add]
    merged there).  Writes and removes always succeed: the OS errors of
    [open] and [os.remove] (a directory at the path, missing permissions)
    are not modelled. *)
Definition apply_one (base : path) (fs : FS) (d : FileDiff) : FS :=
  let p := resolve_under base (file_path d) in
  match change_type d with
  | Modify | Add => fs_write p (diff_content d) fs
  | Delete => fs_remove p fs
  end.

Definition apply_diffs (sbx : path) (diffs : list FileDiff) (fs : FS) : FS :=
  fold_left (apply_one sbx) diffs fs.

Definition apply_fix_to_repo (repo : path) (plan : FixPlan) (fs : FS) : FS :=
  fold_left (apply_one repo) (files_to_change plan) fs.

(** [Sandbox.cleanup]: the integrity check only logs; then [rmtree]. *)
Definition sandbox_cleanup (sbx : path) (fs : FS) : FS :=
  fun q => if is_prefix sbx q then None else fs q.

(* ------------------------------------------------------------------ *)
(** ** Reflective loop ([ReflectiveReasoningLoop.run]) and orchestrator *)

(** Exceptions raised by [MarathonAgent.analyze]: the client's
    [QuotaExhaustedError], or any other error (schema validation, fatal API
    error); the payload is [str(e)]. *)
Inductive Exc :=
| QuotaExhausted (msg : string)
| OtherError (msg : string).

Definition exc_str (e : Exc) : string :=
  match e with QuotaExhausted m => m | OtherError m => m end.

Record AttemptRecord := mkAttemptRecord {
  ar_attempt_number : Z;
  ar_fix_plan : option FixPlan;
  ar_verification_result : option VerificationResult;
  ar_failure_reason : option string
}.

(** The environment of one incident: what the LLM-backed agent answers at
    each attempt (given the attempt number, previous failure and previous
    plan), what each command prints in a given sandbox (the files a command
    may itself write when run are not modelled), and the
    collaborators' answers ([list_files], the workflow parser). *)
Record Env := mkEnv {
  env_analyze : Z -> option string -> option FixPlan -> FixPlan + Exc;
  env_run : FS -> string -> Z * string * string;
  env_elapsed_ms : Z;
  env_total_files : option Z;      (* [None]: [list_files] raised *)
  env_test_commands : list string
}.

Record LoopState := mkLoopState {
  ls_fs : FS;
  ls_attempts : list AttemptRecord;
  ls_previous_failure : option string;
  ls_previous_plan : option FixPlan;
  ls_sandbox_runs : Z;
  ls_files_modified : Z
}.

Definition MAX_ATTEMPTS : nat := 3.

Section Orchestrator.
Variable sha256_hex : string -> string.
Variable env : Env.
Variable repo : path.
Variable sandbox_id : string.

Definition sbx : path := sandbox_path repo sandbox_id.

(** [if test_commands: plan.verification_steps = test_commands] *)
Definition override_steps (test_commands : list string) (plan : FixPlan) : FixPlan :=
  match test_commands with
  | [] => plan
  | cmds => mkFixPlan (rationale plan) (root_cause plan)
              (files_to_change plan) cmds (confidence_score plan)
              (risk_level plan) (attempt_number plan)
              (previous_failure_context plan)
  end.

(** [verify_callback] of [process_incident].  The plan is a shared pydantic
    object: the assignment to [plan.verification_steps] is seen by every
    holder of it, so the callback returns the plan as it is afterwards. *)
Definition verify_callback (plan : FixPlan) (st : LoopState)
    : FixPlan * VerificationResult * LoopState :=
  let fs := sandbox_setup repo sbx (ls_fs st) in
  let plan := override_steps (env_test_commands env) plan in
  let fs := apply_diffs sbx (files_to_change plan) fs in
  let result := verify sha256_hex (env_run env fs) (env_elapsed_ms env) plan in
  (plan, result,
   mkLoopState fs (ls_attempts st) (ls_previous_failure st) (ls_previous_plan st)
     (ls_sandbox_runs st + 1) (Z.of_nat (length (files_to_change plan)))).

(** One iteration of the [for attempt_num in range(1, MAX_ATTEMPTS + 1)]
    loop, then the rest.  [except Exception] catches every error of
    [analyze], [QuotaExhaustedError] included. *)
Fixpoint reflective_loop (nums : list Z) (st : LoopState)
    : option FixPlan * LoopState :=
  match nums with
  | [] => (None, st)
  | n :: rest =>
      match env_analyze env n (ls_previous_failure st) (ls_previous_plan st) with
      | inr e =>
          let record := mkAttemptRecord n None None (Some (exc_str e)) in
          reflective_loop rest
            (mkLoopState (ls_fs st) (ls_attempts st ++ [record])
               (Some (exc_str e)) (ls_previous_plan st)
               (ls_sandbox_runs st) (ls_files_modified st))
      | inl plan0 =>
          let '(plan, result, st1) := verify_callback plan0 st in
          if success result then
            (Some plan,
             mkLoopState (ls_fs st1)
               (ls_attempts st1 ++ [mkAttemptRecord n (Some plan) (Some result) None])
               (ls_previous_failure st1) (ls_previous_plan st1)
               (ls_sandbox_runs st1) (ls_files_modified st1))
          else
            let record := mkAttemptRecord n (Some plan) (Some result)
                            (Some "Verification failed") in
            reflective_loop rest
              (mkLoopState (ls_fs st1) (ls_attempts st1 ++ [record])
                 (Some (output_log result)) (Some plan)
                 (ls_sandbox_runs st1) (ls_files_modified st1))
      end
  end.

Definition attempt_nums : list Z := map Z.of_nat (seq 1 MAX_ATTEMPTS).

Record Outcome := mkOutcome {
  out_decision : Decision;
  out_confidence : Q;
  out_factors : ConfidenceFactors;
  out_final_plan : option FixPlan;
  out_attempts : list AttemptRecord;
  out_fs : FS
}.

Fixpoint last_opt {A} (l : list A) : option A :=
  match l with [] => None | [x] => Some x | _ :: l' => last_opt l' end.

(** [Orchestrator.process_incident] with [cleanup_sandbox] on, the default
    [ResolutionEngine()] and [prev_total] the file count of the scorer left
    by the previous incident (100 for a fresh orchestrator).  [None]: an
    exception escapes (the [ConfidenceFactors] validation of step 4 is
    outside any [try]).  The [except QuotaExhaustedError] and [except
    Exception] handlers around the loop are never reached: the loop catches
    every error of an attempt itself.  [Some o]: the run reaches step 6,
    the report, with these values (decision, confidence, factors, final
    plan, attempts) and this working tree.  The report step itself is not
    part of the model: [EscalationReporter.generate_report] is called there
    with keywords it does not accept, which raises [TypeError]; nor are the
    collaborators taken to raise ([RepositoryContextLoader],
    [WorkflowParser.get_test_commands], [Sandbox.cleanup]). *)
Definition process_incident (prev_total : Z) (fs0 : FS) : option Outcome :=
  let total := match env_total_files env with Some n => n | None => prev_total end in
  let '(final_plan, st) :=
    reflective_loop attempt_nums (mkLoopState fs0 [] None None 0 0) in
  let final_result :=
    match final_plan, ls_attempts st with
    | Some _, _ :: _ =>
        match last_opt (ls_attempts st) with
        | Some r => ar_verification_result r
        | None => None
        end
    | _, _ => None
    end in
  let fs := sandbox_cleanup sbx (ls_fs st) in
  let scored :=
    match final_plan, final_result with
    | Some p, Some r => calculate total p r (attempt_number p)
    | _, _ => Some (0, default_factors)
    end in
  match scored with
  | None => None
  | Some (confidence, factors) =>
      let decision := decide RESOLVE_THRESHOLD confidence (Some factors) in
      let fs := match decision, final_plan with
                | Resolve, Some p => apply_fix_to_repo repo p fs
                | _, _ => fs
                end in
      Some (mkOutcome decision confidence factors final_plan (ls_attempts st) fs)
  end.

End Orchestrator.

(* ------------------------------------------------------------------ *)
(** ** Response cache ([ResponseCache]) and [GeminiClient]

    The cache directory maps file names to the JSON object written there;
    [json.loads] of what [json.dumps] wrote gives back the same strings, so a
    file is kept as its decoded object. *)

Record CacheFile := mkCacheFile {
  cf_prompt_hash : string;
  cf_response : string;
  cf_cached_at : string
}.

Record ResponseCache := mkResponseCache {
  rc_enabled : bool;
  rc_files : string -> option CacheFile
}.

Definition set_enabled (b : bool) (c : ResponseCache) : ResponseCache :=
  mkResponseCache b (rc_files c).

Section Client.
Variable sha256_hex : string -> string.
(** [datetime.now().isoformat()] at the time of a write. *)
Variable now_iso : string.

Definition cache_key (prompt : string) : string := sha256_hex prompt.
Definition cache_file_name (prompt : string) : string := cache_key prompt ++ ".json".

Definition cache_get (c : ResponseCache) (prompt : string) : option string :=
  if rc_enabled c then
    match rc_files c (cache_file_name prompt) with
    | Some f => Some (cf_response f)
    | None => None
    end
  else None.

Definition cache_put (c : ResponseCache) (prompt response_text : string)
    : ResponseCache :=
  if rc_enabled c then
    let name := cache_file_name prompt in
    mkResponseCache (rc_enabled c) (fun n =>
      if String.eqb n name
      then Some (mkCacheFile (cache_key prompt) response_text now_iso)
      else rc_files c n)
  else c.

(** The model endpoint behind [_retry_with_backoff]: the response text, or
    the error that escapes the retries.  Only responses whose [text] is a
    string are modelled; a response without text parts ([text] is [None])
    is not. *)
Variable call_model : string -> string + Exc.
Variable record_mode : bool.

(** [GeminiClient.generate] (call and token counters left out). *)
Definition generate (c : ResponseCache) (prompt : string)
    : (string + Exc) * ResponseCache :=
  match cache_get c prompt with
  | Some cached => (inl cached, c)
  | None =>
      if record_mode then
        (inr (OtherError "Record mode ON but no cached response for this prompt."), c)
      else
        match call_model prompt with
        | inl text => (inl text, cache_put c prompt text)
        | inr e => (inr e, c)
        end
  end.

(** [str.strip()]. *)
Fixpoint lstrip (s : string) : string :=
  match s with
  | String c s' => if is_space c then lstrip s' else s
  | EmptyString => EmptyString
  end.

Definition strip (s : string) : string := string_of_list_ascii
  (rev (list_ascii_of_string (lstrip (string_of_list_ascii
     (rev (list_ascii_of_string (lstrip s))))))).

Definition fence : string := "```".

(** The fence trimming of [generate_structured]. *)
Definition clean_response (raw : string) : string :=
  let c := strip raw in
  let c := if prefix (fence ++ "json") c then drop_n 7 c else c in
  let c := if prefix fence c then drop_n 3 c else c in
  let c := if suffix_of fence c then substring 0 (String.length c - 3) c else c in
  strip c.

(** [json.loads] and [response_model.model_validate], with [str(e)] of
    their errors. *)
Variable Json Model : Type.
Variable json_loads : string -> Json + string.
Variable model_validate : Json -> Model + string.
(** The instruction block built from [response_model.model_json_schema()]. *)
Variable schema_instruction : string.

Definition json_retry_prompt (err : string) : string :=
  "Your previous response was not valid JSON. Error: " ++ err ++ nl ++ nl
  ++ "You MUST output ONLY raw valid JSON matching this schema." ++ nl
  ++ schema_instruction.

Definition schema_retry_prompt (err : string) : string :=
  "Your JSON was valid but fields were wrong. Error: " ++ err ++ nl ++ nl
  ++ "Fix the fields and output ONLY valid JSON." ++ nl ++ schema_instruction.

(** The [for attempt in range(max_validation_retries)] loop: [left] is the
    number of iterations still to run, [attempt < max - 1] is [left > 1].
    The texts of the raised [SchemaValidationError]s are shortened. *)
Fixpoint structured_loop (left : nat) (structured_prompt : string)
    (c : ResponseCache) : (Model + Exc) * ResponseCache :=
  match left with
  | O => (inr (OtherError "Max validation retries exceeded"), c)
  | S left' =>
      let '(raw, c) := generate c structured_prompt in
      match raw with
      | inr e => (inr e, c)
      | inl raw_response =>
          match json_loads (clean_response raw_response) with
          | inr err =>
              match left' with
              | S _ =>
                  let c := set_enabled false c in
                  let sp := json_retry_prompt err in
                  let c := set_enabled true c in
                  structured_loop left' sp c
              | O => (inr (OtherError ("JSON parsing failed: " ++ err)), c)
              end
          | inl data =>
              match model_validate data with
              | inl v => (inl v, c)
              | inr err =>
                  match left' with
                  | S _ =>
                      let c := set_enabled false c in
                      let sp := schema_retry_prompt err in
                      let c := set_enabled true c in
                      structured_loop left' sp c
                  | O => (inr (OtherError ("Schema validation failed: " ++ err)), c)
                  end
              end
          end
      end
  end.

Definition generate_structured (prompt : string) (max_validation_retries : nat)
    (c : ResponseCache) : (Model + Exc) * ResponseCache :=
  structured_loop max_validation_retries (prompt ++ nl ++ nl ++ schema_instruction) c.

End Client.

(* ------------------------------------------------------------------ *)
(** ** Workflow parser ([workflow_parser.py])

    A parsed workflow is kept as its list of jobs, in document order, each
    with its steps.  A step's [name] and [run] are the strings read by
    [(step.get("name", "") or "")] and [step.get("run", "")]: a missing or
    null value is the empty string.  A workflow file that cannot be read or
    parsed is [{}], a workflow without jobs. *)

Record WStep := mkWStep { step_name : string; step_run : string }.
Record Workflow := mkWorkflow { wf_jobs : list (string * list WStep) }.

Definition TEST_KEYWORDS : list string :=
  ["test"; "pytest"; "jest"; "mocha"; "rspec"; "unittest"; "nose"; "check";
   "verify"; "spec"].

Definition has_test_keyword (s : string) : bool :=
  existsb (fun kw => contains kw s) TEST_KEYWORDS.

(** [s.split('\n')]. *)
Fixpoint split_nl_acc (cur : string) (s : string) : list string :=
  match s with
  | EmptyString => [cur]
  | String c s' =>
      if Ascii.eqb c "010"%char then cur :: split_nl_acc EmptyString s'
      else split_nl_acc (cur ++ String c EmptyString) s'
  end.

Definition split_nl (s : string) : list string := split_nl_acc EmptyString s.

(** The lines a test step contributes: stripped, non-empty, not comments. *)
Definition run_lines (run_cmd : string) : list string :=
  filter (fun line => negb (String.eqb line "") && negb (prefix "#" line))
    (map strip (split_nl (strip run_cmd))).

Definition step_commands (is_test_job : bool) (st : WStep) : list string :=
  let name := lower (step_name st) in
  let run_cmd := step_run st in
  if String.eqb run_cmd "" then []
  else if is_test_job || has_test_keyword name || has_test_keyword (lower run_cmd)
  then run_lines run_cmd
  else [].

(** [WorkflowParser.extract_test_commands]. *)
Definition extract_test_commands (wf : Workflow) : list string :=
  flat_map (fun '(job_name, steps) =>
              flat_map (step_commands (has_test_keyword (lower job_name))) steps)
           (wf_jobs wf).

(** The project markers [_detect_test_framework] looks for. *)
Record Markers := mkMarkers {
  has_pyproject : bool; has_setup_py : bool; has_requirements : bool;
  has_package_json : bool; has_go_mod : bool; has_cargo_toml : bool
}.

(** [WorkflowParser._detect_test_framework]; both outcomes of reading
    [package.json] give [npm test]. *)
Definition detect_test_framework (m : Markers) : list string :=
  if has_pyproject m || has_setup_py m || has_requirements m then ["python -m pytest -v"]
  else if has_package_json m then ["npm test"]
  else if has_go_mod m then ["go test ./..."]
  else if has_cargo_toml m then ["cargo test"]
  else ["python -m pytest -v"].

(** [WorkflowParser.get_test_commands] over the parsed workflow files, in
    sorted file order. *)
Definition get_test_commands (wfs : list Workflow) (m : Markers) : list string :=
  match flat_map extract_test_commands wfs with
  | [] => detect_test_framework m
  | all_commands => dedup_paths [] all_commands
  end.

(* ------------------------------------------------------------------ *)
(** ** Retry and rate limiting of [GeminiClient] *)

Definition MAX_RETRIES : nat := 3.
Definition INITIAL_DELAY : Q := 2.
Definition MAX_DELAY : Q := 30.
Definition BACKOFF_FACTOR : Q := 2.

Definition is_quota_error (msg : string) : bool :=
  existsb (fun k => contains k (lower msg)) ["429"; "rate"; "quota"; "resource_exhausted"].

Definition is_transient_error (msg : string) : bool :=
  existsb (fun k => contains k (lower msg)) ["500"; "503"; "timeout"; "unavailable"].

Definition is_retryable (msg : string) : bool :=
  is_quota_error msg || is_transient_error msg.

(** The loop of [_retry_with_backoff]: [call attempt] is what [func] does
    at that attempt (its value, or [str(e)] of what it raised).  The result
    comes with the [time.sleep] delays of the backoff and the number of
    calls made.  [k] counts the iterations left of
    [range(1, MAX_RETRIES + 1)].  The rate-limit check made before each
    call can only sleep; it is [check_rate_limit] below. *)
Fixpoint retry_go {A} (call : nat -> A + string) (k attempt : nat) (delay : Q)
    : (A + Exc) * list Q * nat :=
  match k with
  | O => (inr (QuotaExhausted "Max retries exceeded"), [], O)
  | S k' =>
      match call attempt with
      | inl v => (inl v, [], 1%nat)
      | inr msg =>
          if is_retryable msg then
            if (attempt <? MAX_RETRIES)%nat then
              let '(r, sleeps, n) :=
                retry_go call k' (S attempt) (Qmin (delay * BACKOFF_FACTOR) MAX_DELAY) in
              (r, delay :: sleeps, S n)
            else
              (inr (QuotaExhausted ("API quota exhausted after 3 retries. Last error: "
                                    ++ msg)), [], 1%nat)
          else (inr (OtherError msg), [], 1%nat)
      end
  end.

Definition retry_with_backoff {A} (call : nat -> A + string) : (A + Exc) * list Q * nat :=
  retry_go call MAX_RETRIES 1 INITIAL_DELAY.

Record RateState := mkRateState { requests_this_minute : Z; minute_start : Q }.

(** [_check_rate_limit]: [now] is [time.time()] on entry, [after] is
    [time.time()] after the sleep; returns the new state and the sleep, if
    any. *)
Definition check_rate_limit (max_rpm : Z) (now after : Q) (st : RateState)
    : RateState * option Q :=
  let st := if Qle_bool 60 (now - minute_start st) then mkRateState 0 now else st in
  if Z.leb max_rpm (requests_this_minute st) then
    (mkRateState 0 after, Some (60 - (now - minute_start st) + 1))
  else (st, None).

(* ------------------------------------------------------------------ *)
(** ** Field normalisation of [GeminiFixResponse.validate_files]

    A [Dict[str, str]] is an association list in insertion order:
    [k in d] finds a key, [d.pop(k)] removes it, [d[k] = v] updates the
    key in place or appends it. *)

Definition Dict := list (string * string).

Fixpoint dget (k : string) (d : Dict) : option string :=
  match d with
  | [] => None
  | (k', v) :: d' => if String.eqb k k' then Some v else dget k d'
  end.

Definition dmem (k : string) (d : Dict) : bool :=
  match dget k d with Some _ => true | None => false end.

Fixpoint dremove (k : string) (d : Dict) : Dict :=
  match d with
  | [] => []
  | (k', v) :: d' => if String.eqb k k' then d' else (k', v) :: dremove k d'
  end.

Fixpoint dset (k v : string) (d : Dict) : Dict :=
  match d with
  | [] => [(k, v)]
  | (k', v') :: d' => if String.eqb k k' then (k', v) :: d' else (k', v') :: dset k v d'
  end.

(** [if src in entry and dst not in entry: entry[dst] = entry.pop(src)] *)
Definition rename_key (src dst : string) (d : Dict) : Dict :=
  match dget src d with
  | Some v => if dmem dst d then d else dset dst v (dremove src d)
  | None => d
  end.

Definition type_map (v : string) : string :=
  if String.eqb v "create" then "add"
  else if String.eqb v "update" then "modify"
  else if String.eqb v "remove" then "delete"
  else if String.eqb v "edit" then "modify"
  else v.

Definition valid_change_type (v : string) : bool :=
  String.eqb v "modify" || String.eqb v "add" || String.eqb v "delete".

(** The renamings and the [type_map] step of one iteration of the
    [for f in v] loop. *)
Definition rename_fields (f : Dict) : Dict :=
  let e := rename_key "file" "file_path" f in
  let e := rename_key "path" "file_path" e in
  let e := rename_key "type" "change_type" e in
  let e := rename_key "action" "change_type" e in
  let e := fold_left (fun e alt => rename_key alt "content" e)
             ["changes"; "patch"; "diff"; "code"] e in
  let e := match dget "change_type" e with
           | Some ct => dset "change_type" (type_map ct) e
           | None => e
           end in
  e.

(** One iteration of the [for f in v] loop; [None] is the [ValueError]. *)
Definition normalize_entry (f : Dict) : option Dict :=
  let e := rename_fields f in
  if negb (dmem "file_path" e && dmem "change_type" e && dmem "content" e) then None
  else match dget "change_type" e with
       | Some ct => if valid_change_type ct then Some e else None
       | None => None
       end.

Fixpoint validate_files (v : list Dict) : option (list Dict) :=
  match v with
  | [] => Some []
  | f :: v' =>
      match normalize_entry f with
      | Some e => match validate_files v' with
                  | Some es => Some (e :: es)
                  | None => None
                  end
      | None => None
      end
  end.

Definition change_kind_of (s : string) : option change_kind :=
  if String.eqb s "modify" then Some Modify
  else if String.eqb s "add" then Some Add
  else if String.eqb s "delete" then Some Delete
  else None.

(** The [files_to_change] loop of [MarathonAgent._response_to_plan]: the
    key lookups raise [KeyError] ([None]) and [FileDiff] rejects a
    [change_type] outside its [Literal]. *)
Fixpoint response_to_diffs (fs : list Dict) : option (list FileDiff) :=
  match fs with
  | [] => Some []
  | f :: fs' =>
      match dget "file_path" f, dget "change_type" f, dget "content" f with
      | Some p, Some ct, Some c =>
          match change_kind_of ct, response_to_diffs fs' with
          | Some k, Some ds => Some (mkFileDiff p k c :: ds)
          | _, _ => None
          end
      | _, _, _ => None
      end
  end.

(** The [risk_map] lookup of [_response_to_plan]. *)
Definition risk_of_assessment (s : string) : RiskLevel :=
  let l := lower s in
  if String.eqb l "low" then LOW
  else if String.eqb l "medium" then MEDIUM
  else if String.eqb l "high" then HIGH
  else if String.eqb l "critical" then CRITICAL
  else MEDIUM.

(* ------------------------------------------------------------------ *)
(** ** Concrete inputs used by the theorems *)

Definition id_hash (s : string) : string := s.

Definition demo_repo : path := ["home"; "ci"; "repo"].
Definition demo_sandbox_id : string := "sandbox_INC1_0a1b2c3d".

Definition demo_fs : FS :=
  fun q => if path_eqb q (demo_repo ++ ["app.py"])%list then Some "print(1)"
           else if path_eqb q (demo_repo ++ ["tests"; "test_app.py"])%list
           then Some "assert 1 == 2" else None.

Definition mk_plan (files : list FileDiff) (steps : list string) (conf : Q)
    (n : Z) : FixPlan :=
  mkFixPlan "rationale" "root cause" files steps conf MEDIUM n None.

(** A plan whose change climbs out of the sandbox into the working tree. *)
Definition escaping_plan : FixPlan :=
  mk_plan [mkFileDiff "../../app.py" Modify "import os"] ["python -m pytest -v"] lit_0_5 1.

(** Attempt 1 proposes [escaping_plan] and its tests fail; attempts 2 and 3
    fail in the agent. *)
Definition escape_env : Env :=
  mkEnv (fun n _ _ => if Z.eqb n 1 then inl escaping_plan
                      else inr (OtherError "Schema validation failed"))
        (fun _ _ => (1%Z, "1 failed", EmptyString)) 0 (Some 10%Z) [].

Definition good_plan : FixPlan :=
  mk_plan [mkFileDiff "tests/test_app.py" Modify "assert 1 == 1"]
    ["python -m pytest -v"] (9 # 10) 2.

(** Attempt 1 hits [QuotaExhaustedError]; attempt 2 proposes [good_plan],
    whose tests pass. *)
Definition quota_env : Env :=
  mkEnv (fun n _ _ => if Z.eqb n 1
                      then inr (QuotaExhausted "API quota exhausted after 3 retries.")
                      else inl good_plan)
        (fun _ _ => (0%Z, "2 passed in 0.1s", EmptyString)) 0 (Some 100%Z) [].

Definition unittest_output : string :=
  "Ran 2 tests in 0.003s" ++ nl ++ nl ++ "FAILED (failures=5)".

(** A command that exits 0 while printing a unittest summary whose failure
    count exceeds its test count. *)
Definition unittest_env : Env :=
  mkEnv (fun _ _ _ => inl good_plan)
        (fun _ _ => (0%Z, unittest_output, EmptyString)) 0 (Some 100%Z) [].

(* ------------------------------------------------------------------ *)
(** ** Predicates and inputs of the further properties *)

(** A test command as [extract_test_commands] keeps it: non-empty and not
    a comment. *)
Definition cmd_ok (c : string) : Prop := c <> "" /\ prefix "#" c = false.

Definition nonneg (z : Z) : Prop := (0 <= z)%Z.

(** The counters of the verifier: failures and total never negative, the
    total the sum of the two others. *)
Definition counts_ok (st : VState) : Prop :=
  (0 <= vs_failed st)%Z /\ (0 <= vs_total st)%Z
  /\ vs_total st = (vs_passed st + vs_failed st)%Z.

(** A [files_to_change] entry as [validate_files] returns it. *)
Definition entry_ok (e : Dict) : Prop :=
  dmem "file_path" e = true /\ dmem "content" e = true
  /\ exists ct, dget "change_type" e = Some ct /\ valid_change_type ct = true.

(** The components [norm_step] keeps, and the components that resolve to
    themselves. *)
Definition keep_seg (s : string) : bool := negb (String.eqb s "" || String.eqb s ".").
Definition normal_seg (s : string) : bool := keep_seg s && negb (String.eqb s "..").

(** A relative [file_path] without [..] components. *)
Definition safe_rel (rel : string) : bool :=
  negb (prefix "/" rel) && negb (existsb (String.eqb "..") (split_slash rel)).

Definition failed_record (a : AttemptRecord) : Prop := ar_failure_reason a <> None.

(** An error text that [_retry_with_backoff] classifies as a rate limit,
    because [generate] contains [rate]. *)
Definition generate_failure (_ : nat) : unit + string :=
  inr "ValueError: model failed to generate a fix plan".

Definition aliased_response : list Dict :=
  [[("path", "src/app.py"); ("type", "update"); ("diff", "print(1)")];
   [("file", "README.md"); ("action", "create"); ("code", "# App")]].

Definition aliased_normalised : list Dict :=
  [[("file_path", "src/app.py"); ("change_type", "modify"); ("content", "print(1)")];
   [("file_path", "README.md"); ("change_type", "add"); ("content", "# App")]].

(** A workflow with a test step, a lint job counted as a test job (its name
    contains [check]) and an install step that is not a test step. *)
Definition demo_workflow : Workflow :=
  mkWorkflow
    [("build", [mkWStep "Install" "pip install -r requirements.txt";
                mkWStep "Run tests" ("python -m pytest -q" ++ nl ++ "# coverage later")]);
     ("lint-check", [mkWStep "" "flake8 ."])].

Definition demo_markers : Markers := mkMarkers false false true false false false.

Definition ci_env : Env :=
  mkEnv (fun _ _ _ => inl good_plan)
        (fun _ _ => (0%Z, "2 passed", EmptyString)) 0 (Some 100%Z)
        (get_test_commands [demo_workflow] demo_markers).

Definition fresh_state : LoopState := mkLoopState demo_fs [] None None 0 0.

Definition passed_result : VerificationResult :=
  mkVerificationResult true "0123456789abcdef" EmptyString 0 2 0 2 0.

Definition passed_score : Q * ConfidenceFactors :=
  Eval vm_compute in get_or (calculate 100 good_plan passed_result 2) (0, default_factors).

(** Every attempt's tests fail. *)
Definition failing_env : Env :=
  mkEnv (fun _ _ _ => inl good_plan)
        (fun _ _ => (1%Z, "1 failed, 1 passed", EmptyString)) 0 (Some 100%Z) [].

(** The working tree with a file left in the sandbox directory. *)
Definition stale_fs : FS :=
  fs_write (sandbox_path demo_repo demo_sandbox_id ++ ["stale.py"])%list "leftover" demo_fs.

Definition echo_model (_ : string) : string + Exc := inl "ok".

Definition new_cache : ResponseCache := mkResponseCache true (fun _ => None).

Definition echo_cache : ResponseCache :=
  snd (generate id_hash "2026-01-01T00:00:00" echo_model false new_cache "prompt").

(* ------------------------------------------------------------------ *)
(** ** C1: the resolution gate *)

Lemma Qltb_false (a b : Q) : Qltb a b = false <-> (b <= a)%Q.
Proof.
  unfold Qltb. rewrite negb_false_iff. split.
  - apply Qle_bool_imp_le.
  - intro H. apply Qle_bool_iff. exact H.
Qed.

Lemma decide_Some_resolve_iff (thr s : Q) (f : ConfidenceFactors) :
  decide thr s (Some f) = Resolve <->
  (thr <= s /\ lit_0_5 <= test_pass_ratio f /\ lit_0_3 <= inverse_blast_radius f)%Q.
Proof.
  unfold decide.
  destruct (Qle_bool thr s) eqn:Ht;
  [apply Qle_bool_iff in Ht | rewrite <- not_true_iff_false, Qle_bool_iff in Ht].
  - destruct (Qltb (test_pass_ratio f) lit_0_5) eqn:Hp.
    + split; [discriminate|]. intros (_ & H & _).
      apply Qltb_false in H. congruence.
    + apply Qltb_false in Hp.
      destruct (Qltb (inverse_blast_radius f) lit_0_3) eqn:Hb.
      * split; [discriminate|]. intros (_ & _ & H).
        apply Qltb_false in H. congruence.
      * apply Qltb_false in Hb. tauto.
  - split; [discriminate | tauto].
Qed.

Lemma decide_two_valued (thr s : Q) (f : option ConfidenceFactors) :
  decide thr s f <> Resolve -> decide thr s f = Escalate.
Proof. destruct (decide thr s f); congruence. Qed.

(** C1. For every incident that [process_incident] completes, the
    decision is [Resolve] exactly when the final score is at least the
    resolve threshold (the literal 0.85) and the factors pass both safety
    overrides ([test_pass_ratio >= 0.5] and [inverse_blast_radius >= 0.3]);
    otherwise it is [Escalate]. *)
Theorem process_incident_decision_gate (sha : string -> string) (env : Env)
    (repo : path) (sid : string) (prev_total : Z) (fs0 : FS) (o : Outcome) :
  process_incident sha env repo sid prev_total fs0 = Some o ->
  (out_decision o = Resolve <->
   (RESOLVE_THRESHOLD <= out_confidence o
    /\ lit_0_5 <= test_pass_ratio (out_factors o)
    /\ lit_0_3 <= inverse_blast_radius (out_factors o))%Q)
  /\ (out_decision o = Escalate <->
   ~ (RESOLVE_THRESHOLD <= out_confidence o
      /\ lit_0_5 <= test_pass_ratio (out_factors o)
      /\ lit_0_3 <= inverse_blast_radius (out_factors o))%Q).
Proof.
  unfold process_incident.
  destruct (reflective_loop sha env repo sid attempt_nums _) as [fp st].
  destruct (match fp with Some _ => _ | None => _ end) as [[c f]|]; [|discriminate].
  intro H. injection H as <-. simpl.
  rewrite <- decide_Some_resolve_iff.
  destruct (decide RESOLVE_THRESHOLD c (Some f)); split; split;
    congruence || tauto.
Qed.

Lemma process_incident_decision_gate_witness :
  (exists o, process_incident id_hash quota_env demo_repo demo_sandbox_id 100%Z demo_fs = Some o
     /\ out_decision o = Resolve)
  /\ forall o, process_incident id_hash quota_env demo_repo demo_sandbox_id 100%Z demo_fs = Some o ->
     (RESOLVE_THRESHOLD <= out_confidence o
      /\ lit_0_5 <= test_pass_ratio (out_factors o)
      /\ lit_0_3 <= inverse_blast_radius (out_factors o))%Q.
Proof.
  split.
  - eexists. split; [vm_compute; reflexivity | reflexivity].
  - intros o H.
    apply (process_incident_decision_gate id_hash quota_env demo_repo
             demo_sandbox_id 100%Z demo_fs o H).
    revert H. vm_compute. intro H. injection H as <-. reflexivity.
Defined.

(* ------------------------------------------------------------------ *)
(** ** C2 and C3: writes outside the sandbox *)

Definition app_py : path := (demo_repo ++ ["app.py"])%list.

(** C3. [Sandbox.apply_diffs] performs no containment check: a change whose
    path climbs out with [..], or is absolute, is written (or deleted) at
    the resolved location outside the sandbox, and no error is raised. *)
Theorem apply_diffs_writes_outside_sandbox :
  let sb := sandbox_path demo_repo demo_sandbox_id in
  is_prefix sb app_py = false
  /\ demo_fs app_py = Some "print(1)"
  /\ apply_diffs sb [mkFileDiff "../../app.py" Modify "import os"] demo_fs app_py
     = Some "import os"
  /\ apply_diffs sb [mkFileDiff "../../app.py" Delete EmptyString] demo_fs app_py = None
  /\ is_prefix sb ["etc"; "passwd"] = false
  /\ apply_diffs sb [mkFileDiff "/etc/passwd" Add "x"] demo_fs ["etc"; "passwd"] = Some "x".
Proof. vm_compute. repeat split. Qed.

(** C2. The frame property of escalation fails: on [escape_env] every
    attempt fails, the decision is [Escalate], and yet the tracked file
    [app.py] of the working tree was rewritten while the plan was applied
    to the sandbox. *)
Theorem escalate_does_not_preserve_working_tree :
  ~ (forall sha env repo sid prev_total fs0 o,
       process_incident sha env repo sid prev_total fs0 = Some o ->
       out_decision o = Escalate ->
       forall q, tracked repo q = true -> out_fs o q = fs0 q).
Proof.
  intro H.
  specialize (H id_hash escape_env demo_repo demo_sandbox_id 100%Z demo_fs).
  destruct (process_incident id_hash escape_env demo_repo demo_sandbox_id 100%Z demo_fs)
    as [o|] eqn:E; [|vm_compute in E; discriminate].
  assert (Hd : out_decision o = Escalate)
    by (vm_compute in E; injection E as <-; reflexivity).
  specialize (H o eq_refl Hd app_py eq_refl).
  vm_compute in E. injection E as <-. vm_compute in H. discriminate.
Qed.

(* ------------------------------------------------------------------ *)
(** ** C4: quota exhaustion inside the reflective loop *)

(** C4. [QuotaExhaustedError] raised by the agent at attempt 1 does not
    end the loop: it is caught as an ordinary failed attempt, attempt 2
    runs, its plan verifies, and the incident is resolved and the fix
    applied to the working tree. *)
Theorem quota_exhaustion_does_not_abort_loop :
  match process_incident id_hash quota_env demo_repo demo_sandbox_id 100%Z demo_fs with
  | Some o =>
      map ar_attempt_number (out_attempts o) = [1%Z; 2%Z]
      /\ map ar_failure_reason (out_attempts o)
         = [Some "API quota exhausted after 3 retries."; None]
      /\ out_final_plan o = Some good_plan
      /\ out_decision o = Resolve
      /\ out_fs o (demo_repo ++ ["tests"; "test_app.py"])%list = Some "assert 1 == 1"
  | None => False
  end.
Proof. vm_compute. repeat split. Qed.

(* ------------------------------------------------------------------ *)
(** ** C5: cache writes during a schema retry *)

Definition demo_schema : string := "SCHEMA".
Definition empty_cache : ResponseCache := mkResponseCache true (fun _ => None).

(** The model first answers with text that is not JSON, then answers the
    corrective prompt with valid JSON. *)
Definition retry_model (p : string) : string + Exc :=
  if String.eqb p (json_retry_prompt demo_schema "Expecting value")
  then inl "{}" else inl "not json".

Definition demo_json_loads (s : string) : unit + string :=
  if String.eqb s "{}" then inl tt else inr "Expecting value".

Definition run_structured : (unit + Exc) * ResponseCache :=
  generate_structured id_hash "2026-01-01T00:00:00" retry_model false unit unit
    demo_json_loads (fun _ => inl tt) demo_schema "Fix the CI failure." 3 empty_cache.

(** C5. The flag is switched off and back on before the corrective
    re-prompt is sent, so the retried [generate] call runs with the cache
    enabled and stores the corrective prompt's response. *)
Theorem schema_retry_response_is_cached :
  fst run_structured = inl tt
  /\ rc_enabled (snd run_structured) = true
  /\ rc_files (snd run_structured)
       (cache_file_name id_hash (json_retry_prompt demo_schema "Expecting value"))
     = Some (mkCacheFile (json_retry_prompt demo_schema "Expecting value") "{}"
               "2026-01-01T00:00:00").
Proof. vm_compute. repeat split. Qed.

(* ------------------------------------------------------------------ *)
(** ** C6: verification with no commands *)

Definition no_command_plan : FixPlan := mk_plan [] [] lit_0_5 1.

Definition silent_run (_ : string) : Z * string * string := (0%Z, EmptyString, EmptyString).

(** C6 as stated fails: with no commands the verifier reports (1, 0, 1),
    not (0, 0, 0), and the scorer's test pass ratio is 1, not 0. *)
Lemma no_commands_counts_not_zero :
  let r := verify id_hash silent_run 0 no_command_plan in
  (tests_passed r, tests_failed r, tests_total r) <> (0%Z, 0%Z, 0%Z)
  /\ (match calculate 100 no_command_plan r 1 with
      | Some (_, f) => ~ (test_pass_ratio f == 0)%Q
      | None => False
      end).
Proof. vm_compute. split; [discriminate | intro H; discriminate H]. Qed.

(** C6 (amended). For every plan with no verification commands the
    verifier returns [success = true] with counts (1, 0, 1), the fallback
    for "no counts parsed", so [pass_ratio = 1] and the scorer computes
    [test_pass_ratio = 1]. *)
Theorem verify_no_commands (sha : string -> string)
    (run : string -> Z * string * string) (elapsed : Z) (plan : FixPlan)
    (H : verification_steps plan = []) :
  let r := verify sha run elapsed plan in
  success r = true
  /\ (tests_passed r, tests_failed r, tests_total r) = (1%Z, 0%Z, 1%Z)
  /\ pass_ratio r == 1
  /\ forall total n s f, calculate total plan r n = Some (s, f) ->
                         test_pass_ratio f == 1.
Proof.
  unfold verify. rewrite H. simpl.
  split; [reflexivity|]. split; [reflexivity|]. split; [reflexivity|].
  intros total n s f Hc. unfold calculate in Hc. simpl in Hc.
  destruct (blast_analyze total (files_to_change plan)) as [ibr rm].
  destruct (factors_valid _); [|discriminate].
  injection Hc as _ <-. reflexivity.
Qed.

Lemma verify_no_commands_witness :
  verification_steps no_command_plan = []
  /\ success (verify id_hash silent_run 0 no_command_plan) = true.
Proof.
  split; [reflexivity|].
  exact (proj1 (verify_no_commands id_hash silent_run 0 no_command_plan eq_refl)).
Defined.

(* ------------------------------------------------------------------ *)
(** ** C7: the plan after the verification callback *)

Definition workflow_env : Env :=
  mkEnv (fun _ _ _ => inl good_plan)
        (fun _ _ => (0%Z, "1 passed", EmptyString)) 0 (Some 100%Z)
        ["python -m pytest -q"].

Definition demo_state : LoopState := mkLoopState demo_fs [] None None 0 0.

(** C7 as stated fails: [verify_callback] assigns the workflow's test
    commands to the plan's [verification_steps]. *)
Lemma verify_callback_changes_plan :
  verification_steps good_plan = ["python -m pytest -v"]
  /\ verification_steps
       (fst (fst (verify_callback id_hash workflow_env demo_repo demo_sandbox_id
                    good_plan demo_state)))
     = ["python -m pytest -q"].
Proof. vm_compute. split; reflexivity. Qed.

Lemma verify_callback_plan (sha : string -> string) (env : Env) (repo : path)
    (sid : string) (plan : FixPlan) (st : LoopState) :
  fst (fst (verify_callback sha env repo sid plan st))
  = override_steps (env_test_commands env) plan.
Proof. reflexivity. Qed.

Lemma last_opt_snoc {A} (l : list A) (x : A) : last_opt (l ++ [x])%list = Some x.
Proof.
  induction l as [|a l IH]; [reflexivity|].
  cbn [app]. destruct l as [|b l]; [reflexivity|]. exact IH.
Qed.

Lemma verify_callback_attempts (sha : string -> string) (env : Env) (repo : path)
    (sid : string) (plan : FixPlan) (st : LoopState) :
  ls_attempts (snd (verify_callback sha env repo sid plan st)) = ls_attempts st.
Proof. reflexivity. Qed.

(** The loop variables [previous_failure] and [previous_plan] of
    [ReflectiveReasoningLoop.run] as they stand after the attempts recorded
    so far: a failed verification leaves [result.output_log] and the
    (shared, already overridden) plan, an exception leaves [str(e)] and
    keeps the previous plan. *)
Definition previous_failure_after (recs : list AttemptRecord) : option string :=
  match last_opt recs with
  | None => None
  | Some r => match ar_verification_result r with
              | Some res => Some (output_log res)
              | None => ar_failure_reason r
              end
  end.

Definition previous_plan_after (recs : list AttemptRecord) : option FixPlan :=
  fold_left (fun acc r => match ar_fix_plan r with Some p => Some p | None => acc end)
    recs None.

Lemma previous_plan_after_snoc (recs : list AttemptRecord) (r : AttemptRecord) :
  previous_plan_after (recs ++ [r])%list
  = match ar_fix_plan r with Some p => Some p | None => previous_plan_after recs end.
Proof. unfold previous_plan_after. rewrite fold_left_app. reflexivity. Qed.

Lemma previous_failure_after_snoc (recs : list AttemptRecord) (r : AttemptRecord) :
  previous_failure_after (recs ++ [r])%list
  = match ar_verification_result r with
    | Some res => Some (output_log res)
    | None => ar_failure_reason r
    end.
Proof. unfold previous_failure_after. rewrite last_opt_snoc. reflexivity. Qed.

Lemma reflective_loop_final_plan (sha : string -> string) (env : Env)
    (repo : path) (sid : string) (nums : list Z) :
  forall st p st',
  ls_previous_failure st = previous_failure_after (ls_attempts st) ->
  ls_previous_plan st = previous_plan_after (ls_attempts st) ->
  reflective_loop sha env repo sid nums st = (Some p, st') ->
  exists earlier r p0,
    ls_attempts st' = (earlier ++ [r])%list
    /\ ar_fix_plan r = Some p
    /\ env_analyze env (ar_attempt_number r) (previous_failure_after earlier)
                   (previous_plan_after earlier) = inl p0
    /\ p = override_steps (env_test_commands env) p0.
Proof.
  induction nums as [|n rest IH]; intros st p st' Hf Hp H; cbn [reflective_loop] in H;
    [discriminate|].
  destruct (env_analyze env n (ls_previous_failure st) (ls_previous_plan st))
    as [plan0|e] eqn:Ea.
  - destruct (verify_callback sha env repo sid plan0 st) as [[plan r] st1] eqn:Ev.
    pose proof (verify_callback_plan sha env repo sid plan0 st) as Hpl.
    pose proof (verify_callback_attempts sha env repo sid plan0 st) as Hat.
    rewrite Ev in Hpl, Hat. cbn [fst snd] in Hpl, Hat.
    destruct (success r).
    + injection H as <- <-. cbn [ls_attempts].
      exists (ls_attempts st), (mkAttemptRecord n (Some plan) (Some r) None), plan0.
      rewrite Hat. cbn [ar_fix_plan ar_attempt_number].
      rewrite <- Hf, <- Hp. auto.
    + refine (IH _ _ _ _ _ H); cbn [ls_previous_failure ls_previous_plan ls_attempts];
        rewrite Hat; [rewrite previous_failure_after_snoc | rewrite previous_plan_after_snoc];
        reflexivity.
  - refine (IH _ _ _ _ _ H); cbn [ls_previous_failure ls_previous_plan ls_attempts];
      [rewrite previous_failure_after_snoc | rewrite previous_plan_after_snoc, <- Hp];
      reflexivity.
Qed.

(** C7 (amended). After the reasoning agent produces a plan, the only
    change made to it is by the verification callback, which replaces
    [verification_steps] by the workflow-derived test commands when that
    list is non-empty and leaves every other field as it was; the plan that
    reaches scoring, the gate and the working tree is the agent's plan with
    exactly this replacement: the plan [analyze] returned at the last
    recorded (verified) attempt, called with that attempt's number and the
    previous failure and previous plan left by the attempts before it. *)
Theorem plan_changed_only_in_verification_steps (sha : string -> string)
    (env : Env) (repo : path) (sid : string) :
  (forall plan st,
     let p' := fst (fst (verify_callback sha env repo sid plan st)) in
     rationale p' = rationale plan /\ root_cause p' = root_cause plan
     /\ files_to_change p' = files_to_change plan
     /\ confidence_score p' = confidence_score plan
     /\ risk_level p' = risk_level plan /\ attempt_number p' = attempt_number plan
     /\ previous_failure_context p' = previous_failure_context plan
     /\ verification_steps p' = match env_test_commands env with
                                | [] => verification_steps plan
                                | cmds => cmds
                                end)
  /\ (forall prev_total fs0 o p,
        process_incident sha env repo sid prev_total fs0 = Some o ->
        out_final_plan o = Some p ->
        exists earlier r p0,
          out_attempts o = (earlier ++ [r])%list
          /\ ar_fix_plan r = Some p
          /\ env_analyze env (ar_attempt_number r) (previous_failure_after earlier)
                         (previous_plan_after earlier) = inl p0
          /\ p = override_steps (env_test_commands env) p0).
Proof.
  split.
  - intros plan st. simpl. destruct (env_test_commands env); simpl;
      repeat split; reflexivity.
  - intros prev_total fs0 o p H Hp. unfold process_incident in H.
    destruct (reflective_loop sha env repo sid attempt_nums _) as [fp st] eqn:El.
    destruct (match fp with Some _ => _ | None => _ end) as [[c f]|];
      [|discriminate].
    injection H as <-. cbn [out_final_plan out_attempts] in Hp |- *. subst fp.
    exact (reflective_loop_final_plan sha env repo sid _ (mkLoopState fs0 [] None None 0 0)
             _ _ eq_refl eq_refl El).
Qed.

Lemma plan_changed_only_in_verification_steps_witness :
  exists o, process_incident id_hash workflow_env demo_repo demo_sandbox_id 100%Z demo_fs
            = Some o
  /\ exists earlier r p0,
       out_attempts o = (earlier ++ [r])%list
       /\ ar_fix_plan r = out_final_plan o
       /\ env_analyze workflow_env (ar_attempt_number r) (previous_failure_after earlier)
                      (previous_plan_after earlier) = inl p0
       /\ out_final_plan o = Some (override_steps (env_test_commands workflow_env) p0).
Proof.
  eexists. split; [vm_compute; reflexivity|].
  destruct (proj2 (plan_changed_only_in_verification_steps id_hash workflow_env
              demo_repo demo_sandbox_id) 100%Z demo_fs _
              (override_steps (env_test_commands workflow_env) good_plan)
              ltac:(vm_compute; reflexivity) ltac:(vm_compute; reflexivity))
    as (earlier & r & p0 & Hrecs & Hr & Ha & Hp).
  exists earlier, r, p0. rewrite Hr. split; [exact Hrecs|]. split; [|split; [exact Ha|]].
  - vm_compute. reflexivity.
  - rewrite <- Hp. vm_compute. reflexivity.
Defined.

(* ------------------------------------------------------------------ *)
(** ** C8: range of [pass_ratio] *)

Definition unittest_run (_ : string) : Z * string * string :=
  (0%Z, unittest_output, EmptyString).

(** C8. On a unittest summary whose failure count exceeds its test count
    ([Ran 2 tests ... FAILED (failures=5)]) the parser returns
    [passed = total - failed = -3]; a command printing it with exit code 0
    yields a successful result with [pass_ratio = -3/2], and
    [process_incident] then fails building [ConfidenceFactors] (its
    [ge=0.0] constraint), an exception no handler catches. *)
Theorem pass_ratio_negative_on_unittest_output :
  parse_test_output unittest_output = ((-3)%Z, 5%Z, 2%Z)
  /\ success (verify id_hash unittest_run 0 good_plan) = true
  /\ tests_passed (verify id_hash unittest_run 0 good_plan) = (-3)%Z
  /\ pass_ratio (verify id_hash unittest_run 0 good_plan) == -3 # 2
  /\ (pass_ratio (verify id_hash unittest_run 0 good_plan) < 0)%Q
  /\ process_incident id_hash unittest_env demo_repo demo_sandbox_id 100%Z demo_fs = None.
Proof. vm_compute. repeat split; reflexivity. Qed.

(* ------------------------------------------------------------------ *)
(** ** C9: cache round trip *)

(** C9. With the cache enabled, [get(P)] after [put(P, R)] returns [R],
    and the file [sha256(P).json] holds [R] in its [response] field (and
    [sha256(P)] in [prompt_hash]). *)
Theorem cache_get_after_put (sha : string -> string) (now : string)
    (c : ResponseCache) (P R : string) (H : rc_enabled c = true) :
  cache_get sha (cache_put sha now c P R) P = Some R
  /\ exists f, rc_files (cache_put sha now c P R) (sha P ++ ".json") = Some f
               /\ cf_response f = R /\ cf_prompt_hash f = sha P.
Proof.
  unfold cache_get, cache_put, cache_file_name, cache_key. rewrite H. simpl.
  rewrite ?H, String.eqb_refl. split; [reflexivity|].
  eexists. split; [reflexivity|]. split; reflexivity.
Qed.

Lemma cache_get_after_put_witness :
  rc_enabled empty_cache = true
  /\ cache_get id_hash (cache_put id_hash "t0" empty_cache "prompt" "answer") "prompt"
     = Some "answer".
Proof.
  split; [reflexivity|].
  exact (proj1 (cache_get_after_put id_hash "t0" empty_cache "prompt" "answer"
                  eq_refl)).
Defined.

(* ------------------------------------------------------------------ *)
(** ** C10: the plan fingerprint *)

Lemma verify_input_hash (sha : string -> string)
    (run : string -> Z * string * string) (elapsed : Z) (plan : FixPlan) :
  input_hash (verify sha run elapsed plan) = content_hash sha plan.
Proof.
  unfold verify.
  destruct (Z.eqb _ 0 && vs_success _); reflexivity.
Qed.

(** C10. [content_hash] reads only [files_to_change]: two plans with equal
    file-change lists have equal fingerprints whatever their other fields,
    and the [input_hash] recorded by the verifier is that fingerprint, the
    same for both plans whatever the commands print. *)
Theorem content_hash_only_files (sha : string -> string) (p1 p2 : FixPlan)
    (H : files_to_change p1 = files_to_change p2) :
  content_hash sha p1 = content_hash sha p2
  /\ forall run1 run2 e1 e2,
       input_hash (verify sha run1 e1 p1) = content_hash sha p1
       /\ input_hash (verify sha run1 e1 p1) = input_hash (verify sha run2 e2 p2).
Proof.
  assert (Hc : content_hash sha p1 = content_hash sha p2)
    by (unfold content_hash; rewrite H; reflexivity).
  split; [exact Hc|].
  intros run1 run2 e1 e2. rewrite !verify_input_hash. split; [reflexivity | exact Hc].
Qed.

Definition other_plan : FixPlan :=
  mkFixPlan "another rationale" "another root cause" (files_to_change good_plan)
    ["make check"] (1 # 10) CRITICAL 3 (Some "previous log").

Lemma content_hash_only_files_witness :
  files_to_change good_plan = files_to_change other_plan
  /\ content_hash id_hash good_plan = content_hash id_hash other_plan.
Proof.
  split; [reflexivity|].
  exact (proj1 (content_hash_only_files id_hash good_plan other_plan eq_refl)).
Defined.

(* ------------------------------------------------------------------ *)
(** ** Further properties of the code *)


Lemma run_lines_ok (r : string) : Forall cmd_ok (run_lines r).
Proof.
  unfold run_lines. apply Forall_forall. intros c Hc.
  apply filter_In in Hc. destruct Hc as [_ H].
  apply andb_true_iff in H. destruct H as [H1 H2].
  apply negb_true_iff in H1, H2. split; [|exact H2].
  intro E. subst. discriminate.
Qed.

Lemma extract_test_commands_ok (wf : Workflow) : Forall cmd_ok (extract_test_commands wf).
Proof.
  unfold extract_test_commands. apply Forall_forall. intros c Hc.
  apply in_flat_map in Hc. destruct Hc as [[jn steps] [_ Hc]].
  apply in_flat_map in Hc. destruct Hc as [st [_ Hc]].
  unfold step_commands in Hc.
  destruct (String.eqb (step_run st) ""); [destruct Hc|].
  destruct (_ || _ || _); [|destruct Hc].
  exact (proj1 (Forall_forall _ _) (run_lines_ok _) c Hc).
Qed.

Lemma detect_test_framework_ok (m : Markers) :
  detect_test_framework m <> [] /\ NoDup (detect_test_framework m)
  /\ Forall cmd_ok (detect_test_framework m).
Proof.
  destruct m as [a b c d e f]; unfold detect_test_framework; cbn.
  destruct a, b, c, d, e, f; cbn;
    (split; [discriminate | split; [repeat constructor; intro H; inversion H
           | repeat constructor; discriminate]]).
Qed.

Lemma dedup_paths_spec (ps seen : list string) :
  NoDup (dedup_paths seen ps)
  /\ (forall x, In x (dedup_paths seen ps) -> In x ps /\ ~ In x seen).
Proof.
  revert seen; induction ps as [|p ps IH]; intros seen; cbn.
  - split; [constructor | intros x []].
  - destruct (existsb (String.eqb p) seen) eqn:E.
    + destruct (IH seen) as [H1 H2]. split; [exact H1|].
      intros x Hx. destruct (H2 x Hx). split; [right|]; assumption.
    + assert (Hp : ~ In p seen).
      { intro Hin. assert (existsb (String.eqb p) seen = true) as E'.
        { apply existsb_exists. exists p. split; [exact Hin | apply String.eqb_refl]. }
        congruence. }
      destruct (IH (p :: seen)) as [H1 H2]. split.
      * constructor; [|exact H1]. intro Hin. destruct (H2 p Hin) as [_ H]. apply H. left; reflexivity.
      * intros x [<-|Hx]; [split; [left; reflexivity | exact Hp]|].
        destruct (H2 x Hx) as [H3 H4]. split; [right; exact H3|]. intro. apply H4. right; assumption.
Qed.

Lemma get_test_commands_ok (wfs : list Workflow) (m : Markers) :
  let cs := get_test_commands wfs m in
  cs <> [] /\ NoDup cs /\ Forall cmd_ok cs.
Proof.
  cbn zeta. unfold get_test_commands.
  assert (Hall : Forall cmd_ok (flat_map extract_test_commands wfs)).
  { apply Forall_forall. intros c Hc. apply in_flat_map in Hc. destruct Hc as [wf [_ Hc]].
    exact (proj1 (Forall_forall _ _) (extract_test_commands_ok wf) c Hc). }
  destruct (flat_map extract_test_commands wfs) as [|c cs] eqn:E.
  - apply detect_test_framework_ok.
  - destruct (dedup_paths_spec (c :: cs) []) as [H1 H2]. split; [|split; [exact H1|]].
    + cbn. discriminate.
    + apply Forall_forall. intros x Hx. destruct (H2 x Hx) as [H3 _].
      exact (proj1 (Forall_forall _ _) Hall x H3).
Qed.

(** X1. [get_test_commands] never returns an empty list, never repeats a
    command, and every command is non-empty and not a comment line. *)
Theorem get_test_commands_wellformed (wfs : list Workflow) (m : Markers) :
  let cs := get_test_commands wfs m in
  cs <> [] /\ NoDup cs /\ Forall cmd_ok cs.
Proof. exact (get_test_commands_ok wfs m). Qed.

(** X2. When the orchestrator's test commands come from [get_test_commands],
    every plan verified in the sandbox runs exactly those commands: the
    agent's own verification steps are never run, and the plan's file
    changes are kept. *)
Theorem workflow_commands_replace_agent_steps (sha : string -> string) (env : Env)
    (repo : path) (sid : string) (wfs : list Workflow) (m : Markers)
    (plan : FixPlan) (st : LoopState) :
  env_test_commands env = get_test_commands wfs m ->
  let '(plan', result, _) := verify_callback sha env repo sid plan st in
  verification_steps plan' = get_test_commands wfs m
  /\ files_to_change plan' = files_to_change plan
  /\ result = verify sha (env_run env (apply_diffs (sbx repo sid) (files_to_change plan)
                                (sandbox_setup repo (sbx repo sid) (ls_fs st))))
                (env_elapsed_ms env) plan'.
Proof.
  intros H. unfold verify_callback. rewrite H.
  destruct (get_test_commands_ok wfs m) as [Hne _].
  destruct (get_test_commands wfs m) as [|c cs] eqn:E; [contradiction|].
  cbn. repeat split.
Qed.

Lemma workflow_commands_replace_agent_steps_witness :
  env_test_commands ci_env = get_test_commands [demo_workflow] demo_markers
  /\ get_test_commands [demo_workflow] demo_markers = ["python -m pytest -q"; "flake8 ."]
  /\ (let '(plan', result, _) :=
        verify_callback id_hash ci_env demo_repo demo_sandbox_id good_plan fresh_state in
      verification_steps plan' = get_test_commands [demo_workflow] demo_markers
      /\ files_to_change plan' = files_to_change good_plan
      /\ result = verify id_hash (env_run ci_env (apply_diffs (sbx demo_repo demo_sandbox_id)
                      (files_to_change good_plan)
                      (sandbox_setup demo_repo (sbx demo_repo demo_sandbox_id) (ls_fs fresh_state))))
                    (env_elapsed_ms ci_env) plan').
Proof.
  split; [reflexivity|]. split; [vm_compute; reflexivity|].
  apply (workflow_commands_replace_agent_steps id_hash ci_env demo_repo demo_sandbox_id
           [demo_workflow] demo_markers good_plan fresh_state).
  reflexivity.
Defined.

(** X3. [_retry_with_backoff] calls the function one to three times, sleeps
    2 then 4 seconds between calls, retries only after a retryable error,
    returns the value of the last call, re-raises a non-retryable error
    unchanged and raises [QuotaExhaustedError] only after three retryable
    failures. *)
Theorem retry_with_backoff_shape {A} (call : nat -> A + string) :
  let '(r, sleeps, n) := retry_with_backoff call in
  (1 <= n <= MAX_RETRIES)%nat /\ sleeps = firstn (n - 1) [2; 4]
  /\ (forall j, (1 <= j < n)%nat -> exists msg, call j = inr msg /\ is_retryable msg = true)
  /\ match r with
     | inl v => call n = inl v
     | inr (OtherError msg) => call n = inr msg /\ is_retryable msg = false
     | inr (QuotaExhausted _) =>
         n = MAX_RETRIES /\ exists msg, call n = inr msg /\ is_retryable msg = true
     end.
Proof.
  unfold retry_with_backoff, MAX_RETRIES. cbn [retry_go].
  destruct (call 1%nat) as [v1|m1] eqn:E1.
  { cbn. repeat split; try lia; auto; intros j Hj; lia. }
  destruct (is_retryable m1) eqn:R1; cbn -[Qmin Qmult].
  2:{ repeat split; try lia; auto; intros j Hj; lia. }
  destruct (call 2%nat) as [v2|m2] eqn:E2.
  { cbn. repeat split; try lia; auto.
    intros j Hj. assert (j = 1%nat) by lia. subst. eauto. }
  destruct (is_retryable m2) eqn:R2; cbn -[Qmin Qmult].
  2:{ repeat split; try lia; auto. intros j Hj. assert (j = 1%nat) by lia. subst. eauto. }
  destruct (call 3%nat) as [v3|m3] eqn:E3.
  { cbn. repeat split; try lia; auto.
    intros j Hj. assert (j = 1%nat \/ j = 2%nat) as [-> | ->] by lia; eauto. }
  destruct (is_retryable m3) eqn:R3; cbn; repeat split; try lia; eauto;
    intros j Hj; assert (j = 1%nat \/ j = 2%nat) as [-> | ->] by lia; eauto.
Qed.


(** X4. Any error text that contains [rate] in any letter case (such as
    a message saying the model failed to [generate] a plan) counts as
    retryable, and three retryable errors in a row always end in
    [QuotaExhaustedError] after three calls and sleeps of 2 and 4 seconds. *)
Theorem retry_exhausts_on_persistent_errors {A} (call : nat -> A + string) :
  (forall msg, contains "rate" (lower msg) = true -> is_retryable msg = true)
  /\ ((forall j, exists msg, call j = inr msg /\ is_retryable msg = true) ->
      exists msg, retry_with_backoff call = (inr (QuotaExhausted msg), [2; 4], 3%nat)).
Proof.
  split.
  - intros msg Hr. unfold is_retryable, is_quota_error. cbn [existsb].
    rewrite Hr. destruct (contains "429" (lower msg)); reflexivity.
  - intros H.
    destruct (H 1%nat) as [m1 [E1 R1]], (H 2%nat) as [m2 [E2 R2]], (H 3%nat) as [m3 [E3 R3]].
    unfold retry_with_backoff, MAX_RETRIES. cbn [retry_go].
    rewrite E1, R1. cbn -[Qmin Qmult]. rewrite E2, R2. cbn -[Qmin Qmult].
    rewrite E3, R3. cbn. eexists. reflexivity.
Qed.

Lemma retry_exhausts_on_persistent_errors_witness :
  (forall j, exists msg, generate_failure j = inr msg /\ is_retryable msg = true)
  /\ exists msg, retry_with_backoff generate_failure = (inr (QuotaExhausted msg), [2; 4], 3%nat).
Proof.
  assert (H : forall j, exists msg, generate_failure j = inr msg /\ is_retryable msg = true).
  { intros j. eexists. split; [reflexivity|].
    apply (proj1 (retry_exhausts_on_persistent_errors generate_failure)).
    vm_compute. reflexivity. }
  split; [exact H | exact (proj2 (retry_exhausts_on_persistent_errors generate_failure) H)].
Defined.

(** X5. After [_check_rate_limit] with a positive limit, the request counter
    is below the limit, and a sleep, when there is one, lasts more than 1
    and at most 61 seconds and resets the counter. *)
Theorem check_rate_limit_bounds (max_rpm : Z) (now after : Q) (st : RateState) :
  (0 < max_rpm)%Z -> minute_start st <= now ->
  let '(st', slept) := check_rate_limit max_rpm now after st in
  (requests_this_minute st' < max_rpm)%Z
  /\ match slept with
     | Some t => 1 < t <= 61 /\ st' = mkRateState 0 after
     | None => True
     end.
Proof.
  intros Hmax Hnow. destruct st as [req ms]; cbn in Hnow |- *.
  unfold check_rate_limit; cbn.
  destruct (Qle_bool 60 (now - ms)) eqn:E; cbn.
  - destruct (Z.leb_spec max_rpm 0); [lia|]. cbn. split; [lia | exact I].
  - destruct (Z.leb_spec max_rpm req); cbn.
    + assert (Hlt : ~ 60 <= now - ms) by (intro C; apply Qle_bool_iff in C; congruence).
      apply Qnot_le_lt in Hlt.
      split; [exact Hmax|]. split; [|reflexivity]. split; lra.
    + split; [lia | exact I].
Qed.

Lemma check_rate_limit_bounds_witness :
  (0 < 15)%Z /\ 0 <= 30 /\
  (let '(st', slept) := check_rate_limit 15 30 55 (mkRateState 15 0) in
   (requests_this_minute st' < 15)%Z
   /\ match slept with
      | Some t => 1 < t <= 61 /\ st' = mkRateState 0 55
      | None => True
      end).
Proof.
  split; [lia|]. split; [vm_compute; discriminate|].
  apply (check_rate_limit_bounds 15 30 55 (mkRateState 15 0)); [lia | vm_compute; discriminate].
Defined.

(** Field normalisation *)

Lemma dset_same (k v : string) (d : Dict) : dget k d = Some v -> dset k v d = d.
Proof.
  induction d as [|[k' v'] d IH]; cbn; [discriminate|].
  destruct (String.eqb k k') eqn:E.
  - intros H. injection H as ->. reflexivity.
  - intros H. rewrite (IH H). reflexivity.
Qed.

Lemma rename_key_present (src dst : string) (d : Dict) :
  dmem dst d = true -> rename_key src dst d = d.
Proof. intros H. unfold rename_key. rewrite H. destruct (dget src d); reflexivity. Qed.

Lemma valid_change_type_cases (ct : string) :
  valid_change_type ct = true -> ct = "modify" \/ ct = "add" \/ ct = "delete".
Proof.
  unfold valid_change_type. intros H.
  apply orb_true_iff in H as [H|H]; [apply orb_true_iff in H as [H|H]|];
    apply String.eqb_eq in H; auto.
Qed.

Lemma normalize_entry_ok (f e : Dict) : normalize_entry f = Some e -> entry_ok e.
Proof.
  unfold normalize_entry. generalize (rename_fields f) as e0. intros e0.
  destruct (dmem "file_path" e0 && dmem "change_type" e0 && dmem "content" e0) eqn:H;
    cbn; [|discriminate].
  apply andb_true_iff in H as [H H3]. apply andb_true_iff in H as [H1 H2].
  destruct (dget "change_type" e0) as [ct|] eqn:Ect; [|discriminate].
  destruct (valid_change_type ct) eqn:V; [|discriminate].
  intros Heq; injection Heq as <-. repeat split; auto. eauto.
Qed.

Lemma normalize_entry_fixed (e : Dict) : entry_ok e -> normalize_entry e = Some e.
Proof.
  intros (H1 & H3 & ct & Hct & V).
  assert (H2 : dmem "change_type" e = true) by (unfold dmem; rewrite Hct; reflexivity).
  assert (Hr : rename_fields e = e).
  { unfold rename_fields.
    rewrite (rename_key_present "file" "file_path" e H1),
      (rename_key_present "path" "file_path" e H1),
      (rename_key_present "type" "change_type" e H2),
      (rename_key_present "action" "change_type" e H2).
    cbn [fold_left].
    rewrite (rename_key_present "changes" "content" e H3),
      (rename_key_present "patch" "content" e H3),
      (rename_key_present "diff" "content" e H3),
      (rename_key_present "code" "content" e H3), Hct.
    destruct (valid_change_type_cases ct V) as [->|[->| ->]]; cbn;
      apply dset_same; rewrite Hct; reflexivity. }
  unfold normalize_entry. rewrite Hr, H1, H2, H3. cbn. rewrite Hct, V. reflexivity.
Qed.

Lemma validate_files_ok (v v' : list Dict) :
  validate_files v = Some v' -> length v' = length v /\ Forall entry_ok v'.
Proof.
  revert v'; induction v as [|f v IH]; intros v'; cbn.
  - intros H; injection H as <-. split; [reflexivity | constructor].
  - destruct (normalize_entry f) as [e|] eqn:E; [|discriminate].
    destruct (validate_files v) as [es|]; [|discriminate].
    intros H; injection H as <-. destruct (IH es eq_refl) as [Hl Hf].
    split; [cbn; rewrite Hl; reflexivity|]. constructor; [|exact Hf].
    exact (normalize_entry_ok f e E).
Qed.

(** X6. [validate_files] is idempotent: the entries it returns pass it again
    unchanged. *)
Theorem validate_files_idempotent (v v' : list Dict) :
  validate_files v = Some v' -> validate_files v' = Some v'.
Proof.
  intros H. destruct (validate_files_ok v v' H) as [_ Hf]. clear H.
  induction Hf as [|e es He Hes IH]; cbn; [reflexivity|].
  rewrite (normalize_entry_fixed e He), IH. reflexivity.
Qed.

(** X7. Every list accepted by [validate_files] converts to [FileDiff]s in
    [_response_to_plan] without a missing key or an invalid [change_type],
    one diff per entry. *)
Theorem validated_files_convert (v v' : list Dict) :
  validate_files v = Some v' ->
  exists ds, response_to_diffs v' = Some ds /\ length ds = length v
             /\ map file_path ds = map (fun e => get_or (dget "file_path" e) "") v'.
Proof.
  intros H. destruct (validate_files_ok v v' H) as [Hl Hf]. rewrite <- Hl. clear H Hl.
  induction Hf as [|e es He Hes IH]; cbn.
  - exists []. repeat split.
  - destruct IH as [ds [Hds [Hlen Hmap]]].
    destruct He as (H1 & H3 & ct & Hct & V).
    unfold dmem in H1, H3.
    destruct (dget "file_path" e) as [p|]; [|discriminate].
    destruct (dget "content" e) as [c|]; [|discriminate].
    rewrite Hct, Hds.
    destruct (valid_change_type_cases ct V) as [->|[->| ->]]; cbn;
      eexists; (split; [reflexivity|]); cbn; rewrite Hlen, Hmap; split; reflexivity.
Qed.

Lemma validated_files_convert_witness :
  validate_files aliased_response = Some aliased_normalised
  /\ exists ds, response_to_diffs aliased_normalised = Some ds
     /\ length ds = length aliased_response
     /\ map file_path ds = map (fun e => get_or (dget "file_path" e) "") aliased_normalised.
Proof.
  assert (H : validate_files aliased_response = Some aliased_normalised)
    by (vm_compute; reflexivity).
  split; [exact H | exact (validated_files_convert _ _ H)].
Defined.

Lemma validate_files_idempotent_witness :
  validate_files aliased_response = Some aliased_normalised
  /\ validate_files aliased_normalised = Some aliased_normalised.
Proof.
  assert (H : validate_files aliased_response = Some aliased_normalised)
    by (vm_compute; reflexivity).
  split; [exact H | exact (validate_files_idempotent _ _ H)].
Defined.


Lemma Z_of_digits_acc_nonneg (acc : Z) (s : string) :
  (0 <= acc)%Z -> (0 <= Z_of_digits_acc acc s)%Z.
Proof. revert acc; induction s as [|c s IH]; intros acc H; cbn [Z_of_digits_acc]; [exact H|]. apply IH. lia. Qed.

Lemma num_ws_word_nonneg (w s : string) (z : Z) (r : string) :
  num_ws_word w s = Some (z, r) -> (0 <= z)%Z.
Proof.
  unfold num_ws_word. destruct (take_digits s) as [d r0].
  destruct d as [|c d]; [discriminate|].
  destruct (spaces1 r0) as [r1|]; cbn; [|discriminate].
  destruct (after w r1); cbn; [|discriminate].
  intros H; injection H as <- _. apply Z_of_digits_acc_nonneg. lia.
Qed.

Lemma grp_num_ws_word_nonneg (w s : string) (z : Z) :
  grp (num_ws_word w s) = Some z -> (0 <= z)%Z.
Proof.
  unfold grp. destruct (num_ws_word w s) as [[z' r]|] eqn:E; [|discriminate].
  intros H; injection H as <-. exact (num_ws_word_nonneg _ _ _ _ E).
Qed.

Lemma search_inv {A} (P : A -> Prop) (f : string -> option A) (s : string) (a : A) :
  (forall s a, f s = Some a -> P a) -> search f s = Some a -> P a.
Proof.
  intros Hf; induction s as [|c s IH]; cbn; destruct (f _) eqn:E;
    try (intros H; injection H as <-; exact (Hf _ _ E)); auto; discriminate.
Qed.

Lemma search_line_inv {A} (P : A -> Prop) (f : string -> option A) (s : string) (a : A) :
  (forall s a, f s = Some a -> P a) -> search_line f s = Some a -> P a.
Proof.
  intros Hf; induction s as [|c s IH]; cbn; destruct (f _) eqn:E;
    try (intros H; injection H as <-; exact (Hf _ _ E)); try discriminate.
  destruct (Ascii.eqb c "010"%char); [discriminate | exact IH].
Qed.

Lemma get_or_inv {A} (P : A -> Prop) (o : option A) (d : A) :
  P d -> (forall a, o = Some a -> P a) -> P (get_or o d).
Proof. destruct o; cbn; auto. Qed.

Lemma re_nonneg (s : string) :
  (forall z, search re_passed s = Some z -> nonneg z)
  /\ (forall z, search re_failed s = Some z -> nonneg z)
  /\ (forall z, search re_short s = Some z -> nonneg z)
  /\ (forall z, search re_ran s = Some z -> nonneg z)
  /\ (forall z, search re_failures s = Some z -> nonneg z)
  /\ (forall p f, search re_jest s = Some (p, f) -> nonneg p /\ nonneg f).
Proof.
  refine (conj _ (conj _ (conj _ (conj _ (conj _ _))))).
  - intros z. apply search_inv. intros s' a. apply grp_num_ws_word_nonneg.
  - intros z. apply search_inv. intros s' a. apply grp_num_ws_word_nonneg.
  - intros z. apply search_inv. intros s' a. unfold re_short.
    destruct s' as [|c s']; [discriminate|].
    destruct (Ascii.eqb c "="); [apply grp_num_ws_word_nonneg | discriminate].
  - intros z. apply search_inv. intros s' a. unfold re_ran.
    destruct (after "Ran" s') as [s0|]; cbn; [|discriminate].
    destruct (spaces1 s0); cbn; [apply grp_num_ws_word_nonneg | discriminate].
  - intros z. apply search_inv. intros s' a. unfold re_failures.
    destruct (after "failures=" s') as [s0|]; cbn; [|discriminate].
    destruct (take_digits s0) as [[|c d] r]; [discriminate|].
    intros H; injection H as <-. apply Z_of_digits_acc_nonneg. lia.
  - intros p f H.
    apply (search_inv (fun '(p, f) => nonneg p /\ nonneg f) re_jest s (p, f)); [|exact H].
    clear. intros s' [p0 f0]. unfold re_jest.
    destruct (after "Tests:" s') as [s0|]; cbn; [|discriminate].
    destruct (num_ws_word "passed" (drop_spaces s0)) as [[p' r']|] eqn:E; cbn; [|discriminate].
    destruct (search_line re_failed r') as [f'|] eqn:E2; cbn; [|discriminate].
    intros H; injection H as <- <-. split.
    + exact (num_ws_word_nonneg _ _ _ _ E).
    + apply (search_line_inv nonneg re_failed r'); [|exact E2].
      intros s1 a1. apply grp_num_ws_word_nonneg.
Qed.

Lemma parse_counts_ok (output : string) :
  let '(passed, failed, total) := parse_test_output output in
  (0 <= failed)%Z /\ (0 <= total)%Z /\ (passed <= total)%Z /\ total = (passed + failed)%Z.
Proof.
  destruct (re_nonneg output) as (Hp & Hf & Hs & Hr & Hfl & Hj).
  unfold parse_test_output.
  assert (Hp0 : nonneg (get_or (search re_passed output) 0%Z))
    by (apply get_or_inv; [unfold nonneg; lia | exact Hp]).
  assert (Hf0 : nonneg (get_or (search re_failed output) 0%Z))
    by (apply get_or_inv; [unfold nonneg; lia | exact Hf]).
  set (p0 := get_or (search re_passed output) 0%Z) in *.
  set (f0 := get_or (search re_failed output) 0%Z) in *.
  assert (Hp1 : nonneg (if Z.eqb p0 0 then get_or (search re_short output) p0 else p0)).
  { destruct (Z.eqb p0 0); [apply get_or_inv; [exact Hp0 | exact Hs] | exact Hp0]. }
  set (p1 := if Z.eqb p0 0 then get_or (search re_short output) p0 else p0) in *.
  clearbody p1 f0. unfold nonneg in *.
  destruct (search re_ran output) as [total|] eqn:Er.
  - specialize (Hr total eq_refl).
    destruct (Z.eqb p1 0 && Z.eqb f0 0) eqn:Ec.
    + apply andb_true_iff in Ec as [_ Ef]. apply Z.eqb_eq in Ef.
      destruct (contains "OK" output).
      * destruct (search re_jest output) as [[pj fj]|] eqn:Ej;
          [destruct (Hj pj fj eq_refl); unfold nonneg in *|]; lia.
      * destruct (contains "FAILED" output).
        -- destruct (search re_failures output) as [fr|] eqn:Ef2;
             [specialize (Hfl fr eq_refl); unfold nonneg in *|];
           (destruct (search re_jest output) as [[pj fj]|] eqn:Ej;
             [destruct (Hj pj fj eq_refl); unfold nonneg in *|]; lia).
        -- destruct (search re_jest output) as [[pj fj]|] eqn:Ej;
             [destruct (Hj pj fj eq_refl); unfold nonneg in *|]; lia.
    + destruct (search re_jest output) as [[pj fj]|] eqn:Ej;
        [destruct (Hj pj fj eq_refl); unfold nonneg in *|]; lia.
  - destruct (search re_jest output) as [[pj fj]|] eqn:Ej;
      [destruct (Hj pj fj eq_refl); unfold nonneg in *|]; lia.
Qed.

(** X8. [_parse_test_output] never reports a negative failure count or
    total, and the passed count never exceeds the total. *)
Theorem parse_test_output_bounds (output : string) :
  let '(passed, failed, total) := parse_test_output output in
  (0 <= failed)%Z /\ (0 <= total)%Z /\ (passed <= total)%Z.
Proof.
  generalize (parse_counts_ok output).
  destruct (parse_test_output output) as [[p f] t]. tauto.
Qed.

Lemma verify_steps_counts (run : string -> Z * string * string) (cmds : list string)
    (st : VState) :
  counts_ok st -> counts_ok (fold_left (verify_step run) cmds st).
Proof.
  revert st; induction cmds as [|c cmds IH]; intros st H; cbn; [exact H|].
  apply IH. unfold verify_step.
  destruct (run c) as [[code stdout] stderr].
  generalize (parse_counts_ok (stdout ++ stderr)).
  destruct (parse_test_output (stdout ++ stderr)) as [[p f] t].
  intros (H1 & H2 & H3 & H4). destruct H as (G1 & G2 & G3).
  unfold counts_ok; cbn. lia.
Qed.

(** X9. A [VerificationResult] built by [verify] has non-negative failure
    and total counts, at most as many passed tests as the total, and a pass
    ratio of at most 1. *)
Theorem verify_counts_bounds (sha : string -> string) (run : string -> Z * string * string)
    (elapsed_ms : Z) (plan : FixPlan) :
  let r := verify sha run elapsed_ms plan in
  (0 <= tests_failed r)%Z /\ (0 <= tests_total r)%Z
  /\ (tests_passed r <= tests_total r)%Z /\ pass_ratio r <= 1.
Proof.
  cbn zeta. unfold verify.
  assert (H0 : counts_ok (mkVState EmptyString true 0 0 0 0)) by (unfold counts_ok; cbn; lia).
  generalize (verify_steps_counts run (verification_steps plan) _ H0).
  generalize (fold_left (verify_step run) (verification_steps plan)
                (mkVState EmptyString true 0 0 0 0)) as st.
  intros st (H1 & H2 & H3).
  destruct (Z.eqb (vs_total st) 0 && vs_success st) eqn:E; unfold pass_ratio; cbn.
  - repeat split; try lia. destruct (vs_success st); discriminate.
  - repeat split; try lia.
    destruct (Z.eqb_spec (vs_total st) 0).
    + destruct (vs_success st); [apply Qle_refl | discriminate].
    + apply Qle_shift_div_r; [unfold Qlt; cbn; lia|].
      rewrite Qmult_1_l. unfold Qle; cbn. lia.
Qed.

Lemma Qle_bool_true (a b : Q) : a <= b -> Qle_bool a b = true.
Proof. apply Qle_bool_iff. Qed.

Lemma in_unit_iff (x : Q) : in_unit x = true <-> 0 <= x /\ x <= 1.
Proof.
  unfold in_unit. rewrite andb_true_iff, !Qle_bool_iff. tauto.
Qed.

Lemma Qsum_bounds (a b : Q) (l : list Q) :
  Forall (fun x => a <= x /\ x <= b) l ->
  inject_Z (Z.of_nat (length l)) * a <= Qsum l
  /\ Qsum l <= inject_Z (Z.of_nat (length l)) * b.
Proof.
  induction 1 as [|x l [Ha Hb] _ [IH1 IH2]]; cbn [Qsum fold_right length].
  - unfold inject_Z; cbn. split; lra.
  - rewrite Nat2Z.inj_succ, <- Z.add_1_r, inject_Z_plus. unfold Qsum in *.
    cbn [fold_right]. change (inject_Z 1) with 1. split; lra.
Qed.

Lemma risk_score_range (r : RiskLevel) : lit_0_1 <= risk_score r /\ risk_score r <= 1.
Proof. destruct r; cbn; unfold lit_0_1, lit_0_10, lit_0_7, lit_0_4, Qle; cbn; lia. Qed.

Lemma blast_bounds (total_files : Z) (changes : list FileDiff) :
  let '(ibr, rm) := blast_analyze total_files changes in
  0 <= ibr /\ ibr <= 1 /\ lit_0_1 <= rm /\ rm <= 1.
Proof.
  unfold blast_analyze. destruct changes as [|c cs].
  - unfold lit_0_1, lit_0_10, Qle; cbn. lia.
  - set (risks := map classify_file_risk (dedup_paths [] (map file_path (c :: cs)))).
    set (ratio := (Z.of_nat (length (c :: cs)) # 1) / (Z.max total_files 1 # 1)).
    assert (Hr : 0 <= ratio).
    { apply Qle_shift_div_l; [unfold Qlt; cbn; lia|]. rewrite Qmult_0_l. unfold Qle; cbn; lia. }
    assert (Hlen : (1 <= length risks)%nat).
    { unfold risks. rewrite length_map. cbn. lia. }
    assert (Hc : 0 < (Z.of_nat (length risks) # 1)) by (unfold Qlt; cbn; lia).
    destruct (Qsum_bounds lit_0_1 1 (map risk_score risks)) as [H1 H2].
    { apply Forall_forall. intros x Hx. apply in_map_iff in Hx as [r [<- _]].
      apply risk_score_range. }
    rewrite length_map in H1, H2. change (inject_Z (Z.of_nat (length risks)))
      with (Z.of_nat (length risks) # 1) in H1, H2.
    destruct (Q.min_spec ratio 1) as [[M1 M2]|[M1 M2]];
      (split; [lra|]); (split; [lra|]); split.
    all: try (apply Qle_shift_div_l; [exact Hc | lra]).
    all: apply Qle_shift_div_r; [exact Hc | lra].
Qed.

(** X10. [BlastRadiusAnalyzer.analyze] returns an inverse blast radius in
    [0, 1] and a positive risk modifier of at most 1. *)
Theorem blast_analyze_range (total_files : Z) (changes : list FileDiff) :
  let '(ibr, rm) := blast_analyze total_files changes in
  0 <= ibr /\ ibr <= 1 /\ 0 < rm /\ rm <= 1.
Proof.
  pose proof (blast_bounds total_files changes) as H.
  destruct (blast_analyze total_files changes) as [ibr rm].
  destruct H as (H1 & H2 & H3 & H4). repeat split; try assumption.
  apply Qlt_le_trans with lit_0_1; [|exact H3].
  unfold lit_0_1, lit_0_10, Qlt; cbn. lia.
Qed.

Lemma attempt_penalty_range (n : Z) : in_unit (ATTEMPT_PENALTIES n) = true.
Proof.
  unfold ATTEMPT_PENALTIES.
  destruct (Z.eqb n 1); [reflexivity|]. destruct (Z.eqb n 2); [reflexivity|].
  destruct (Z.eqb n 3); reflexivity.
Qed.

Lemma calculate_none_iff_aux (total_files : Z) (plan : FixPlan)
    (result : VerificationResult) (attempt : Z) :
  calculate total_files plan result attempt = None
  <-> in_unit (if success result then pass_ratio result else 0)
      && in_unit (confidence_score plan) = false.
Proof.
  unfold calculate.
  generalize (blast_bounds total_files (files_to_change plan)).
  destruct (blast_analyze total_files (files_to_change plan)) as [ibr rm].
  intros (H1 & H2 & H3 & H4).
  assert (Hi : in_unit ibr = true) by (apply in_unit_iff; split; assumption).
  assert (Hm : in_unit rm = true).
  { apply in_unit_iff. split; [|assumption].
    apply Qle_trans with lit_0_1; [unfold lit_0_1, lit_0_10, Qle; cbn; lia | assumption]. }
  unfold factors_valid; cbn [test_pass_ratio inverse_blast_radius attempt_penalty
                             risk_modifier self_consistency_score].
  rewrite Hi, Hm, attempt_penalty_range.
  destruct (in_unit (if success result then pass_ratio result else 0));
    destruct (in_unit (confidence_score plan)); cbn; split; congruence.
Qed.

(** X11. Building the [ConfidenceFactors] in [calculate] fails exactly when
    the test pass ratio or the plan's self-assessed confidence lies outside
    [0, 1]; the other three factors are always in range. *)
Theorem calculate_none_iff (total_files : Z) (plan : FixPlan)
    (result : VerificationResult) (attempt : Z) :
  calculate total_files plan result attempt = None
  <-> in_unit (if success result then pass_ratio result else 0)
      && in_unit (confidence_score plan) = false.
Proof. exact (calculate_none_iff_aux total_files plan result attempt). Qed.

(** X12. The clamp of [calculate] never binds: the returned score is the
    weighted sum of the factors, in [0, 1]. *)
Theorem calculate_score_unclamped (total_files : Z) (plan : FixPlan)
    (result : VerificationResult) (attempt : Z) (score : Q) (f : ConfidenceFactors) :
  calculate total_files plan result attempt = Some (score, f) ->
  score == weighted_score f /\ 0 <= score /\ score <= 1.
Proof.
  unfold calculate. destruct (blast_analyze total_files (files_to_change plan)) as [ibr rm].
  set (f0 := mkConfidenceFactors _ _ _ _ _).
  destruct (factors_valid f0) eqn:V; [|discriminate].
  intros H; injection H as <- <-.
  unfold factors_valid in V. rewrite !andb_true_iff, !in_unit_iff in V.
  destruct V as [[[[[A1 A2] [B1 B2]] [C1 C2]] [D1 D2]] [E1 E2]].
  assert (W1 : 0 <= weighted_score f0) by
    (unfold weighted_score, lit_0_35, lit_0_25, lit_0_15, lit_0_10; lra).
  assert (W2 : weighted_score f0 <= 1) by
    (unfold weighted_score, lit_0_35, lit_0_25, lit_0_15, lit_0_10; lra).
  destruct (Q.min_spec 1 (weighted_score f0)) as [[M1 M2]|[M1 M2]];
    destruct (Q.max_spec 0 (Qmin 1 (weighted_score f0))) as [[N1 N2]|[N1 N2]];
    repeat split; lra.
Qed.

Lemma calculate_score_unclamped_witness :
  calculate 100 good_plan passed_result 2 = Some passed_score
  /\ fst passed_score == weighted_score (snd passed_score)
  /\ 0 <= fst passed_score /\ fst passed_score <= 1.
Proof.
  assert (H : calculate 100 good_plan passed_result 2
              = Some (fst passed_score, snd passed_score)) by (vm_compute; reflexivity).
  split; [exact H|].
  exact (calculate_score_unclamped 100 good_plan passed_result 2 _ _ H).
Defined.

(** X13. [ResolutionEngine.decide] is monotone: a Resolve stays a Resolve
    with a higher score or a lower threshold. *)
Theorem decide_monotone (thr thr' s s' : Q) (f : option ConfidenceFactors) :
  thr' <= thr -> s <= s' -> decide thr s f = Resolve -> decide thr' s' f = Resolve.
Proof.
  intros Ht Hs. unfold decide.
  destruct (Qle_bool thr s) eqn:E; [|discriminate].
  apply Qle_bool_iff in E.
  rewrite (proj2 (Qle_bool_iff thr' s')) by lra. exact (fun H => H).
Qed.

Lemma decide_monotone_witness :
  4 # 5 <= RESOLVE_THRESHOLD /\ 9 # 10 <= 19 # 20
  /\ decide RESOLVE_THRESHOLD (9 # 10) (Some (snd passed_score)) = Resolve
  /\ decide (4 # 5) (19 # 20) (Some (snd passed_score)) = Resolve.
Proof.
  assert (H1 : 4 # 5 <= RESOLVE_THRESHOLD)
    by (unfold RESOLVE_THRESHOLD, lit_0_85, Qle; cbn; lia).
  assert (H2 : 9 # 10 <= 19 # 20) by (unfold Qle; cbn; lia).
  assert (H3 : decide RESOLVE_THRESHOLD (9 # 10) (Some (snd passed_score)) = Resolve)
    by (vm_compute; reflexivity).
  split; [exact H1|]. split; [exact H2|]. split; [exact H3|].
  exact (decide_monotone RESOLVE_THRESHOLD (4 # 5) (9 # 10) (19 # 20) _ H1 H2 H3).
Defined.


Lemma norm_fold_no_dotdot (l stk : list string) :
  existsb (String.eqb "..") l = false ->
  fold_left norm_step l stk = (rev (filter keep_seg l) ++ stk)%list.
Proof.
  revert stk; induction l as [|a l IH]; intros stk H;
    cbn [fold_left filter existsb] in H |- *; [reflexivity|].
  apply orb_false_iff in H as [Ha Hl]. rewrite (IH _ Hl). unfold norm_step, keep_seg.
  destruct (String.eqb a "" || String.eqb a "."); cbn [negb]; [reflexivity|].
  rewrite String.eqb_sym, Ha. cbn [rev]. rewrite <- app_assoc. reflexivity.
Qed.

Lemma filter_keep_normal (base : list string) :
  forallb normal_seg base = true -> filter keep_seg base = base.
Proof.
  induction base as [|a l IH]; cbn [forallb filter]; [reflexivity|].
  intros H. apply andb_true_iff in H as [Ha Hl]. unfold normal_seg in Ha.
  apply andb_true_iff in Ha as [Ha _]. rewrite Ha, (IH Hl). reflexivity.
Qed.

Lemma no_dotdot_normal (base : list string) :
  forallb normal_seg base = true -> existsb (String.eqb "..") base = false.
Proof.
  induction base as [|a l IH]; cbn [forallb existsb]; [reflexivity|].
  intros H. apply andb_true_iff in H as [Ha Hl]. unfold normal_seg in Ha.
  apply andb_true_iff in Ha as [_ Ha]. rewrite String.eqb_sym.
  apply negb_true_iff in Ha. rewrite Ha, (IH Hl). reflexivity.
Qed.

Lemma resolve_under_safe (base : path) (rel : string) :
  forallb normal_seg base = true -> safe_rel rel = true ->
  resolve_under base rel = (base ++ filter keep_seg (split_slash rel))%list.
Proof.
  intros Hb Hr. unfold safe_rel in Hr. apply andb_true_iff in Hr as [H1 H2].
  apply negb_true_iff in H1, H2.
  unfold resolve_under, normalise. rewrite H1, fold_left_app.
  rewrite (norm_fold_no_dotdot base [] (no_dotdot_normal base Hb)).
  rewrite (norm_fold_no_dotdot _ _ H2), app_nil_r, (filter_keep_normal base Hb).
  rewrite rev_app_distr, !rev_involutive. reflexivity.
Qed.

Lemma is_prefix_app (p x : path) : is_prefix p (p ++ x)%list = true.
Proof. induction p as [|a p IH]; cbn; [reflexivity|]. rewrite String.eqb_refl. exact IH. Qed.

Lemma is_prefix_app_app (p a b : path) : is_prefix (p ++ a)%list (p ++ b)%list = is_prefix a b.
Proof. induction p as [|x p IH]; cbn; [reflexivity|]. rewrite String.eqb_refl. exact IH. Qed.

Lemma is_prefix_spec (p q : path) : is_prefix p q = true -> q = (p ++ skipn (length p) q)%list.
Proof.
  revert q; induction p as [|a p IH]; intros q; cbn; [reflexivity|].
  destruct q as [|b q]; [discriminate|]. intros H. apply andb_true_iff in H as [H1 H2].
  apply String.eqb_eq in H1. subst. cbn. rewrite <- (IH q H2). reflexivity.
Qed.

Lemma path_eqb_false (q p : path) : q <> p -> path_eqb q p = false.
Proof. unfold path_eqb. destruct (list_eq_dec string_dec q p); congruence. Qed.

Lemma apply_one_frame (base : path) (fs : FS) (d : FileDiff) (q : path) :
  q <> resolve_under base (file_path d) -> apply_one base fs d q = fs q.
Proof.
  intros H. unfold apply_one, fs_write, fs_remove.
  destruct (change_type d); rewrite (path_eqb_false _ _ H); reflexivity.
Qed.

Lemma apply_all_frame (base : path) (ds : list FileDiff) (fs : FS) (q : path) :
  ~ In q (map (fun d => resolve_under base (file_path d)) ds) ->
  fold_left (apply_one base) ds fs q = fs q.
Proof.
  revert fs; induction ds as [|d ds IH]; intros fs H; cbn in H |- *; [reflexivity|].
  rewrite IH by tauto. apply apply_one_frame. intros E. apply H. left. congruence.
Qed.

Lemma apply_diffs_confined (sbx : path) (ds : list FileDiff) (fs : FS) (q : path) :
  forallb normal_seg sbx = true -> Forall (fun d => safe_rel (file_path d) = true) ds ->
  is_prefix sbx q = false -> apply_diffs sbx ds fs q = fs q.
Proof.
  intros Hb Hs Hq. apply apply_all_frame. intros Hin.
  apply in_map_iff in Hin as [d [E Hd]].
  rewrite (resolve_under_safe sbx _ Hb (proj1 (Forall_forall _ _) Hs d Hd)) in E.
  subst q. rewrite is_prefix_app in Hq. discriminate.
Qed.

Lemma override_steps_files (cmds : list string) (plan : FixPlan) :
  files_to_change (override_steps cmds plan) = files_to_change plan.
Proof. destruct cmds; reflexivity. Qed.

Section Frame.
Variable sha : string -> string.
Variable env : Env.
Variable repo : path.
Variable sid : string.
Hypothesis Hsafe : forall n pf pp plan, env_analyze env n pf pp = inl plan ->
  Forall (fun d => safe_rel (file_path d) = true) (files_to_change plan).
Hypothesis Hnorm : forallb normal_seg (sandbox_path repo sid) = true.

Lemma reflective_loop_confined (nums : list Z) (st : LoopState) (q : path) :
  is_prefix (sbx repo sid) q = false ->
  ls_fs (snd (reflective_loop sha env repo sid nums st)) q = ls_fs st q.
Proof.
  intros Hq. revert st; induction nums as [|n nums IH]; intros st; [reflexivity|].
  cbn [reflective_loop].
  destruct (env_analyze env n (ls_previous_failure st) (ls_previous_plan st)) as [plan0|e] eqn:Ea.
  - assert (Hfs : ls_fs (snd (verify_callback sha env repo sid plan0 st)) q = ls_fs st q).
    { cbn. rewrite override_steps_files. rewrite apply_diffs_confined.
      - unfold sandbox_setup. rewrite Hq. reflexivity.
      - exact Hnorm.
      - exact (Hsafe _ _ _ _ Ea).
      - exact Hq. }
    destruct (verify_callback sha env repo sid plan0 st) as [[plan result] st1].
    cbn in Hfs. destruct (success result).
    + exact Hfs.
    + rewrite IH. exact Hfs.
  - rewrite IH. reflexivity.
Qed.

End Frame.

Lemma skipn_length_app (p l : path) : skipn (length p) (p ++ l)%list = l.
Proof. induction p as [|a p IH]; [reflexivity | exact IH]. Qed.

Lemma tracked_outside_sandbox (repo : path) (sid : string) (q : path) :
  tracked repo q = true -> is_prefix (sandbox_path repo sid) q = false.
Proof.
  intros Ht. destruct (is_prefix (sandbox_path repo sid) q) eqn:E; [|reflexivity].
  exfalso. apply is_prefix_spec in E. unfold sandbox_path in E.
  rewrite <- app_assoc in E. rewrite E in Ht. unfold tracked in Ht.
  rewrite is_prefix_app, skipn_length_app in Ht. cbn [app rev] in Ht.
  destruct (rev (skipn (length (repo ++ [".sandbox"; sid])%list) q)) as [|y ys];
    cbn in Ht; [discriminate|].
  rewrite existsb_app in Ht. cbn in Ht. rewrite orb_true_r in Ht. discriminate.
Qed.



Lemma reflective_loop_records (sha : string -> string) (env : Env) (repo : path)
    (sid : string) (nums : list Z) (st : LoopState) :
  let '(fp, st') := reflective_loop sha env repo sid nums st in
  exists recs, ls_attempts st' = (ls_attempts st ++ recs)%list
  /\ map ar_attempt_number recs = firstn (length recs) nums
  /\ (nums <> [] -> recs <> [])
  /\ match fp with
     | Some p => exists pre n r,
         recs = (pre ++ [mkAttemptRecord n (Some p) (Some r) None])%list
         /\ success r = true /\ Forall failed_record pre
     | None => length recs = length nums /\ Forall failed_record recs
     end.
Proof.
  revert st; induction nums as [|n nums IH]; intros st.
  - cbn. exists []. rewrite app_nil_r. repeat split; auto; congruence.
  - cbn [reflective_loop].
    destruct (env_analyze env n (ls_previous_failure st) (ls_previous_plan st)) as [plan0|e].
    + pose proof (verify_callback_attempts sha env repo sid plan0 st) as HA.
      destruct (verify_callback sha env repo sid plan0 st) as [[plan result] st1].
      cbn [snd] in HA. destruct (success result) eqn:Es.
      * exists [mkAttemptRecord n (Some plan) (Some result) None].
        cbn. rewrite HA. repeat split; [congruence|].
        exists [], n, result. repeat split; auto.
      * match goal with |- context [reflective_loop _ _ _ _ nums ?s] =>
          specialize (IH s); destruct (reflective_loop sha env repo sid nums s) as [fp st'] end.
        destruct IH as [recs (H1 & H2 & H3 & H4)].
        exists (mkAttemptRecord n (Some plan) (Some result) (Some "Verification failed") :: recs).
        cbn [ls_attempts] in H1. rewrite H1, HA, <- app_assoc. cbn [app].
        split; [reflexivity|]. split; [cbn; rewrite H2; reflexivity|].
        split; [congruence|].
        destruct fp as [p|].
        -- destruct H4 as (pre & m & r & -> & Hr & Hpre).
           exists (mkAttemptRecord n (Some plan) (Some result) (Some "Verification failed") :: pre), m, r.
           repeat split; auto. constructor; [cbn; discriminate | exact Hpre].
        -- destruct H4 as [Hl Hf]. cbn. split; [congruence|].
           constructor; [cbn; discriminate | exact Hf].
    + match goal with |- context [reflective_loop _ _ _ _ nums ?s] =>
        specialize (IH s); destruct (reflective_loop sha env repo sid nums s) as [fp st'] end.
      destruct IH as [recs (H1 & H2 & H3 & H4)].
      exists (mkAttemptRecord n None None (Some (exc_str e)) :: recs).
      cbn [ls_attempts] in H1. rewrite H1, <- app_assoc. cbn [app].
      split; [reflexivity|]. split; [cbn; rewrite H2; reflexivity|].
      split; [congruence|].
      destruct fp as [p|].
      * destruct H4 as (pre & m & r & -> & Hr & Hpre).
        exists (mkAttemptRecord n None None (Some (exc_str e)) :: pre), m, r.
        repeat split; auto. constructor; [cbn; discriminate | exact Hpre].
      * destruct H4 as [Hl Hf]. cbn. split; [congruence|].
        constructor; [cbn; discriminate | exact Hf].
Qed.

(** X14. The reflective loop records attempts numbered 1..k with 1 <= k <=
    3; with a final plan the last record holds it with a successful result
    and every earlier record has a failure reason; without one, all three
    attempts are recorded as failed. *)
Theorem reflective_loop_attempts (sha : string -> string) (env : Env) (repo : path)
    (sid : string) (fs0 : FS) :
  let '(fp, st) := reflective_loop sha env repo sid attempt_nums
                     (mkLoopState fs0 [] None None 0 0) in
  exists k, (1 <= k <= MAX_ATTEMPTS)%nat
  /\ map ar_attempt_number (ls_attempts st) = map Z.of_nat (seq 1 k)
  /\ match fp with
     | Some p => exists pre r,
         ls_attempts st = (pre ++ [mkAttemptRecord (Z.of_nat k) (Some p) (Some r) None])%list
         /\ success r = true /\ Forall failed_record pre
     | None => k = MAX_ATTEMPTS /\ Forall failed_record (ls_attempts st)
     end.
Proof.
  generalize (reflective_loop_records sha env repo sid attempt_nums (mkLoopState fs0 [] None None 0 0)).
  destruct (reflective_loop sha env repo sid attempt_nums (mkLoopState fs0 [] None None 0 0))
    as [fp st].
  intros [recs (H1 & H2 & H3 & H4)]. cbn [ls_attempts app] in H1. rewrite H1.
  change attempt_nums with [1%Z; 2%Z; 3%Z] in H2, H3, H4.
  assert (Hk : length recs = 1%nat \/ length recs = 2%nat \/ length recs = 3%nat).
  { assert (recs <> []) by (apply H3; discriminate).
    assert (length recs <> 0%nat) by (destruct recs; cbn; congruence).
    assert (Hl := f_equal (@length Z) H2). rewrite length_map, length_firstn in Hl.
    cbn in Hl. lia. }
  assert (Hm : map ar_attempt_number recs = map Z.of_nat (seq 1 (length recs))).
  { rewrite H2. destruct Hk as [-> | [-> | ->]]; reflexivity. }
  exists (length recs). split; [unfold MAX_ATTEMPTS; lia|]. split; [exact Hm|].
  destruct fp as [p|].
  - destruct H4 as (pre & n & r & Hrecs & Hr & Hpre). exists pre, r.
    split; [|split; assumption].
    assert (Hn : n = Z.of_nat (length recs)).
    { rewrite Hrecs in Hm |- *. rewrite length_app, Nat.add_comm in Hm |- *. cbn [length] in Hm |- *.
      rewrite seq_S, !map_app in Hm. apply app_inj_tail in Hm as [_ Hm].
      cbn [ar_attempt_number] in Hm. lia. }
    rewrite Hrecs at 1. rewrite Hn. reflexivity.
  - destruct H4 as [Hl Hf]. split; [exact Hl | exact Hf].
Qed.

Lemma process_incident_none_iff (sha : string -> string) (env : Env) (repo : path)
    (sid : string) (prev_total : Z) (fs0 : FS) :
  process_incident sha env repo sid prev_total fs0 = None
  <-> exists p r n,
        let '(fp, st) := reflective_loop sha env repo sid attempt_nums
                           (mkLoopState fs0 [] None None 0 0) in
        fp = Some p
        /\ last_opt (ls_attempts st) = Some (mkAttemptRecord n (Some p) (Some r) None)
        /\ in_unit (pass_ratio r) && in_unit (confidence_score p) = false.
Proof.
  unfold process_incident.
  generalize (reflective_loop_records sha env repo sid attempt_nums (mkLoopState fs0 [] None None 0 0)).
  destruct (reflective_loop sha env repo sid attempt_nums (mkLoopState fs0 [] None None 0 0))
    as [fp st].
  intros [recs (H1 & H2 & H3 & H4)]. cbn [ls_attempts app] in H1.
  destruct fp as [p|].
  - destruct H4 as (pre & n & r & Hrecs & Hr & _).
    rewrite H1, Hrecs.
    assert (Hne : exists y ys, (pre ++ [mkAttemptRecord n (Some p) (Some r) None])%list = y :: ys)
      by (destruct pre; cbn; eauto).
    destruct Hne as (y & ys & Hy). rewrite Hy. cbv zeta. rewrite <- Hy, last_opt_snoc.
    cbn [ar_verification_result].
    pose proof (calculate_none_iff_aux
                  (match env_total_files env with Some n0 => n0 | None => prev_total end)
                  p r (attempt_number p)) as Hc.
    rewrite Hr in Hc.
    destruct (calculate _ p r (attempt_number p)) as [[conf f]|].
    + split; [discriminate|]. intros (p0 & r0 & n0 & E1 & E2 & E3).
      injection E1 as <-. injection E2 as <- <-. apply Hc in E3. discriminate.
    + split; [|reflexivity]. intros _. exists p, r, n. repeat split. apply Hc. reflexivity.
  - cbn. split; [discriminate|]. intros (p0 & r0 & n0 & E1 & _). discriminate.
Qed.

(** X15. When the loop ends with a verified plan whose pass ratio or
    [confidence_score] lies outside [0, 1], an exception escapes
    [process_incident] (the [ConfidenceFactors] validation of step 4), so
    no decision is taken and no report is reached. *)
Theorem process_incident_raises_out_of_range (sha : string -> string) (env : Env)
    (repo : path) (sid : string) (prev_total : Z) (fs0 : FS) :
  (exists p r n,
     let '(fp, st) := reflective_loop sha env repo sid attempt_nums
                        (mkLoopState fs0 [] None None 0 0) in
     fp = Some p
     /\ last_opt (ls_attempts st) = Some (mkAttemptRecord n (Some p) (Some r) None)
     /\ in_unit (pass_ratio r) && in_unit (confidence_score p) = false) ->
  process_incident sha env repo sid prev_total fs0 = None.
Proof. apply process_incident_none_iff. Qed.

Lemma process_incident_raises_out_of_range_witness :
  process_incident id_hash unittest_env demo_repo demo_sandbox_id 100 demo_fs = None.
Proof.
  apply process_incident_raises_out_of_range.
  vm_compute. do 3 eexists. split; [reflexivity|]. split; [reflexivity|]. reflexivity.
Defined.

(** X16. When no attempt is verified and [process_incident] reaches its
    report step, it has decided to escalate, with confidence 0, the default
    factors and three failed attempt records. *)
Theorem process_incident_no_plan_escalates (sha : string -> string) (env : Env)
    (repo : path) (sid : string) (prev_total : Z) (fs0 : FS) (o : Outcome) :
  fst (reflective_loop sha env repo sid attempt_nums (mkLoopState fs0 [] None None 0 0)) = None ->
  process_incident sha env repo sid prev_total fs0 = Some o ->
  out_decision o = Escalate /\ out_confidence o = 0 /\ out_factors o = default_factors
  /\ length (out_attempts o) = MAX_ATTEMPTS /\ Forall failed_record (out_attempts o).
Proof.
  unfold process_incident.
  generalize (reflective_loop_records sha env repo sid attempt_nums (mkLoopState fs0 [] None None 0 0)).
  destruct (reflective_loop sha env repo sid attempt_nums (mkLoopState fs0 [] None None 0 0))
    as [fp st].
  intros [recs (H1 & H2 & H3 & H4)] E. cbn [fst] in E. subst fp.
  cbn [ls_attempts app] in H1. destruct H4 as [Hl Hf].
  intros Ho. cbn in Ho. injection Ho as <-. cbn.
  repeat split; rewrite ?H1; auto.
Qed.

Lemma process_incident_no_plan_escalates_witness :
  exists o, process_incident id_hash failing_env demo_repo demo_sandbox_id 100 demo_fs = Some o
  /\ out_decision o = Escalate /\ out_confidence o = 0 /\ out_factors o = default_factors
  /\ length (out_attempts o) = MAX_ATTEMPTS /\ Forall failed_record (out_attempts o).
Proof.
  assert (H : fst (reflective_loop id_hash failing_env demo_repo demo_sandbox_id attempt_nums
                     (mkLoopState demo_fs [] None None 0 0)) = None)
    by (vm_compute; reflexivity).
  eexists. split; [vm_compute; reflexivity|].
  exact (process_incident_no_plan_escalates id_hash failing_env demo_repo demo_sandbox_id
           100 demo_fs _ H ltac:(vm_compute; reflexivity)).
Defined.



(** X19. With the cache enabled, a successful [generate] whose response
    has text (a string [response.text]) stores it: calling [generate] again
    with the same prompt returns the same text from the cache and leaves
    the cache unchanged. *)
Theorem generate_success_cached (sha : string -> string) (now : string)
    (call_model : string -> string + Exc) (record_mode : bool) (c c' : ResponseCache)
    (prompt t : string) :
  rc_enabled c = true ->
  generate sha now call_model record_mode c prompt = (inl t, c') ->
  generate sha now call_model record_mode c' prompt = (inl t, c').
Proof.
  intros Hen. unfold generate.
  destruct (cache_get sha c prompt) as [s|] eqn:Eg.
  - intros H; injection H as <- <-. rewrite Eg. reflexivity.
  - destruct record_mode; [discriminate|].
    destruct (call_model prompt) as [text|e]; [|discriminate].
    intros H; injection H as <- <-.
    unfold cache_get, cache_put. rewrite Hen. cbn. rewrite ?Hen, ?String.eqb_refl. reflexivity.
Qed.

Lemma generate_success_cached_witness :
  rc_enabled new_cache = true
  /\ generate id_hash "2026-01-01T00:00:00" echo_model false new_cache "prompt"
     = (inl "ok", echo_cache)
  /\ generate id_hash "2026-01-01T00:00:00" echo_model false echo_cache "prompt"
     = (inl "ok", echo_cache).
Proof.
  assert (H1 : rc_enabled new_cache = true) by reflexivity.
  assert (H2 : generate id_hash "2026-01-01T00:00:00" echo_model false new_cache "prompt"
               = (inl "ok", echo_cache)) by reflexivity.
  split; [exact H1|]. split; [exact H2|].
  exact (generate_success_cached id_hash "2026-01-01T00:00:00" echo_model false new_cache
           echo_cache "prompt" "ok" H1 H2).
Defined.
